(** * CI/CD pipeline assistant: the failure-diagnosis core

    A shallow embedding of the agent container's Python sources

      - [log_analysis_function.py]      (module [LogAnalysis])
      - [repo_structure_function.py]    (module [RepoStructure])
      - [solution_provider_function.py] (module [SolutionProvider])
      - [supervisor_function.py]        (module [Supervisor])

    together with the properties the specification states about them.

    Conventions.  A Python [str] is a [string] whose characters are the code
    points U+0000..U+00FF.  Epoch milliseconds are [Z].  A JSON-like Python
    object is a [value]; a [dict] is an association list whose first binding
    of a key is the live one.  Code that can raise returns a [result].  The
    [while True] loops of the log fetch are unrolled under a fuel bound and
    return an [outcome], whose [OutOfFuel] stands for a loop still running
    after that many iterations. *)

From Stdlib Require Import ZArith List String Ascii Bool Arith Lia.
From Stdlib Require Import Sorted Permutation DecimalString.
Import ListNotations.

Set Warnings "-register-all".

Local Open Scope string_scope.
Local Open Scope list_scope.

(* ================================================================== *)
(** ** Python [str] methods used by the sources *)
(* ================================================================== *)

Module PyStr.

(** [len(s) == 0], i.e. [not s]. *)
Definition is_empty (s : string) : bool :=
  match s with EmptyString => true | String _ _ => false end.

(** One character of [str.lower()]: A-Z and the Latin-1 capitals
    U+00C0..U+00DE (U+00D7, the multiplication sign, apart) move up by 32. *)
Definition lower_char (c : ascii) : ascii :=
  let n := nat_of_ascii c in
  if ((65 <=? n) && (n <=? 90))%nat then ascii_of_nat (n + 32)
  else if ((192 <=? n) && (n <=? 222) && negb (n =? 215))%nat
       then ascii_of_nat (n + 32)
  else c.

Fixpoint lower (s : string) : string :=
  match s with
  | EmptyString => EmptyString
  | String c t => String (lower_char c) (lower t)
  end.

(** [s.startswith(p)]. *)
Definition startswith (s p : string) : bool := String.prefix p s.

(** [s.endswith(suf)]. *)
Definition endswith (s suf : string) : bool :=
  (String.length suf <=? String.length s)%nat
  && String.eqb
       (String.substring (String.length s - String.length suf)
                         (String.length suf) s)
       suf.

(** [needle in hay] on two strings: substring search. *)
Fixpoint contains (needle hay : string) : bool :=
  String.prefix needle hay
  || match hay with
     | EmptyString => false
     | String _ t => contains needle t
     end.

(** [s.lstrip(chars)], [s.rstrip(chars)], [s.strip(chars)] for a set of
    characters given as a predicate. *)
Fixpoint lstrip_by (p : ascii -> bool) (s : string) : string :=
  match s with
  | EmptyString => EmptyString
  | String c t => if p c then lstrip_by p t else s
  end.

Fixpoint rstrip_by (p : ascii -> bool) (s : string) : string :=
  match s with
  | EmptyString => EmptyString
  | String c t =>
      let t' := rstrip_by p t in
      if is_empty t' && p c then EmptyString else String c t'
  end.

Definition strip_by (p : ascii -> bool) (s : string) : string :=
  rstrip_by p (lstrip_by p s).

(** [str.isspace] on one code point below U+0100: TAB..CR, FS..US, space,
    NEL (U+0085) and NBSP (U+00A0). *)
Definition is_space (c : ascii) : bool :=
  let n := nat_of_ascii c in
  ((9 <=? n) && (n <=? 13) || (28 <=? n) && (n <=? 32)
   || (n =? 133) || (n =? 160))%nat.

(** [s.strip()]. *)
Definition strip (s : string) : string := strip_by is_space s.

(** The double quote, U+0022. *)
Definition dquote : ascii := ascii_of_nat 34.

(** [s.strip(c)] for a one-character argument. *)
Definition strip_char (c : ascii) (s : string) : string :=
  strip_by (Ascii.eqb c) s.

(** [s.split(c)] for a one-character separator: never the empty list. *)
Fixpoint split (c : ascii) (s : string) : list string :=
  match s with
  | EmptyString => [EmptyString]
  | String x t =>
      if Ascii.eqb x c then EmptyString :: split c t
      else match split c t with
           | h :: r => String x h :: r
           | [] => [String x EmptyString]
           end
  end.

(** [s.replace(old, new)] for a non-empty [old]: occurrences are found left
    to right and do not overlap.  [skip] counts the characters of the
    occurrence just replaced that are still to be passed over. *)
Fixpoint replace_from (old new : string) (skip : nat) (s : string) : string :=
  match s with
  | EmptyString => EmptyString
  | String c t =>
      match skip with
      | S k => replace_from old new k t
      | O =>
          if String.prefix old s
          then new ++ replace_from old new (String.length old - 1) t
          else String c (replace_from old new 0 t)
      end
  end.

Definition replace (old new s : string) : string := replace_from old new 0 s.

(** [s.removesuffix(suf)]: what stripping a trailing suffix means. *)
Definition removesuffix (suf s : string) : string :=
  if endswith s suf
  then String.substring 0 (String.length s - String.length suf) s
  else s.

End PyStr.

(* ================================================================== *)
(** ** Python objects, exceptions and results *)
(* ================================================================== *)

Module Py.

(** The exception classes the sources raise or catch by name; every other
    class (botocore's [ClientError], [requests] errors, [KeyError], ...) is
    [OtherError].  Each carries [str(e)]. *)
Inductive exn : Type :=
| ValueError (msg : string)
| AttributeError (msg : string)
| TypeError (msg : string)
| ParameterNotFound (msg : string)
| OtherError (msg : string).

(** [str(e)]. *)
Definition str_of_exn (e : exn) : string :=
  match e with
  | ValueError m | AttributeError m | TypeError m
  | ParameterNotFound m | OtherError m => m
  end.

(** What a piece of code, or a call to an external service, comes back
    with: a value, or an exception. *)
Inductive result (A : Type) : Type :=
| Ok (a : A)
| Raise (e : exn).

Arguments Ok {A} a.
Arguments Raise {A} e.

Definition bind {A B : Type} (m : result A) (k : A -> result B) : result B :=
  match m with
  | Ok a => k a
  | Raise e => Raise e
  end.

(** [try: return m  except Exception as e: return h(e)]. *)
Definition try_except {A : Type} (m : result A) (h : exn -> A) : A :=
  match m with
  | Ok a => a
  | Raise e => h e
  end.

(** JSON-like Python objects: what [json.loads] builds and [json.dumps]
    accepts.  No code path modelled here computes with a number, so JSON
    numbers are kept as integers. *)
Inductive value : Type :=
| VNone
| VBool (b : bool)
| VNum (n : Z)
| VStr (s : string)
| VList (l : list value)
| VDict (d : list (string * value)).

(** Truthiness: [bool(v)]. *)
Definition truthy (v : value) : bool :=
  match v with
  | VNone => false
  | VBool b => b
  | VNum n => negb (Z.eqb n 0)
  | VStr s => negb (PyStr.is_empty s)
  | VList l => match l with [] => false | _ => true end
  | VDict d => match d with [] => false | _ => true end
  end.

Fixpoint lookup (k : string) (d : list (string * value)) : option value :=
  match d with
  | [] => None
  | (k', v) :: r => if String.eqb k k' then Some v else lookup k r
  end.

(** [o.get(k, default)]: only a dict has [get]. *)
Definition get_default (o : value) (k : string) (default : value)
  : result value :=
  match o with
  | VDict d => Ok (match lookup k d with Some v => v | None => default end)
  | _ => Raise (AttributeError "object has no attribute 'get'")
  end.

(** [o.get(k)]. *)
Definition get (o : value) (k : string) : result value :=
  get_default o k VNone.

(** [x in container] for a string [x]: membership in a list (by [==]),
    substring of a string, key of a dict; a [TypeError] otherwise. *)
Definition is_str (x : string) (v : value) : bool :=
  match v with VStr y => String.eqb x y | _ => false end.

Definition str_in (x : string) (container : value) : result bool :=
  match container with
  | VList l => Ok (existsb (is_str x) l)
  | VStr s => Ok (PyStr.contains x s)
  | VDict d => Ok (match lookup x d with Some _ => true | None => false end)
  | _ => Raise (TypeError "argument is not iterable")
  end.

End Py.

Import Py.

Notation "x <- m ;; k" := (Py.bind m (fun x => k))
  (at level 61, m at next level, right associativity).

(* ================================================================== *)
(** ** [repo_structure_function.py] *)
(* ================================================================== *)

Module RepoStructure.

(** [any(path.lower().endswith(ext) for ext in exts)]. *)
Definition any_endswith (path : string) (exts : list string) : bool :=
  existsb (fun ext => PyStr.endswith (PyStr.lower path) ext) exts.

(** [any(name in path.lower() for name in names)]. *)
Definition any_in (path : string) (names : list string) : bool :=
  existsb (fun name => PyStr.contains name (PyStr.lower path)) names.

Definition config_extensions : list string :=
  [".json"; ".yaml"; ".yml"; ".xml"; ".properties"; ".ini"; ".conf"].

Definition config_names : list string :=
  ["dockerfile"; "makefile"; "jenkinsfile"; "buildspec"].

Definition _is_config_file (path : string) : bool :=
  any_endswith path config_extensions || any_in path config_names.

Definition source_extensions : list string :=
  [".py"; ".js"; ".java"; ".cpp"; ".c"; ".go"; ".rs"; ".rb"; ".php"; ".cs";
   ".ts"].

Definition _is_source_file (path : string) : bool :=
  any_endswith path source_extensions.

Definition build_files : list string :=
  ["build.gradle"; "pom.xml"; "package.json"; "requirements.txt"; "setup.py";
   "cargo.toml"].

Definition _is_build_file (path : string) : bool := any_in path build_files.

Definition deployment_patterns : list string :=
  ["deploy"; "k8s"; "kubernetes"; "helm"; "terraform"; "cloudformation";
   "docker"].

Definition _is_deployment_file (path : string) : bool :=
  any_in path deployment_patterns.

(** The four lists of the ["analysis"] record that
    [analyze_repository_structure] returns. *)
Record Analysis : Type := {
  config_files : list string;
  source_files : list string;
  build_files_found : list string;
  deployment_files : list string
}.

Definition analysis (file_paths : list string) : Analysis :=
  {| config_files := filter _is_config_file file_paths;
     source_files := filter _is_source_file file_paths;
     build_files_found := filter _is_build_file file_paths;
     deployment_files := filter _is_deployment_file file_paths |}.

(** *** Repository URL *)

(** [urlparse(repo_url).path] for a URL [scheme://authority/path?query#frag]:
    the scheme is cut at the first [:] when only scheme characters precede
    it, the authority runs from [//] to the next [/], [?] or [#], and the
    path ends at the first [#] or [?].  (The standard library's whitespace
    and control-character clean-up, its check of bracketed hosts and the
    [;parameters] of the last segment are left out; the properties below
    that hold for every URL are stated on the path itself.) *)
Definition is_scheme_char (c : ascii) : bool :=
  let n := nat_of_ascii c in
  ((97 <=? n) && (n <=? 122) || (65 <=? n) && (n <=? 90)
   || (48 <=? n) && (n <=? 57)
   || (n =? 43) || (n =? 45) || (n =? 46))%nat.

Definition is_ascii_alpha (c : ascii) : bool :=
  let n := nat_of_ascii c in
  ((97 <=? n) && (n <=? 122) || (65 <=? n) && (n <=? 90))%nat.

(** The rest of [s] after a leading run of scheme characters closed by [:],
    when there is one. *)
Fixpoint after_scheme (s : string) : option string :=
  match s with
  | EmptyString => None
  | String c t =>
      if Ascii.eqb c ":" then Some t
      else if is_scheme_char c then after_scheme t
      else None
  end.

Definition drop_scheme (url : string) : string :=
  match url with
  | String c _ =>
      if is_ascii_alpha c
      then match after_scheme url with Some r => r | None => url end
      else url
  | EmptyString => url
  end.

(** [s] up to (not including) the first character satisfying [stop]. *)
Fixpoint take_until (stop : ascii -> bool) (s : string) : string :=
  match s with
  | EmptyString => EmptyString
  | String c t => if stop c then EmptyString else String c (take_until stop t)
  end.

(** [s] from the first character satisfying [stop] on. *)
Fixpoint drop_until (stop : ascii -> bool) (s : string) : string :=
  match s with
  | EmptyString => EmptyString
  | String c t => if stop c then s else drop_until stop t
  end.

Definition is_delim (c : ascii) : bool :=
  Ascii.eqb c "/" || Ascii.eqb c "?" || Ascii.eqb c "#".

Definition is_query_or_fragment (c : ascii) : bool :=
  Ascii.eqb c "?" || Ascii.eqb c "#".

Definition drop_netloc (url : string) : string :=
  match url with
  | String "/" (String "/" r) => drop_until is_delim r
  | _ => url
  end.

Definition urlparse_path (repo_url : string) : string :=
  take_until is_query_or_fragment (drop_netloc (drop_scheme repo_url)).

(** [_parse_github_url] after [parsed = urlparse(repo_url)], as a function
    of [parsed.path]; [(None, None)] is the failure value its callers turn
    into the "Invalid GitHub URL format" error. *)
Definition parse_path (path : string) : option string * option string :=
  let path_parts := PyStr.split "/" (PyStr.strip_char "/" path) in
  match path_parts with
  | owner :: name :: _ => (Some owner, Some (PyStr.replace ".git" "" name))
  | _ => (None, None)
  end.

Definition _parse_github_url (repo_url : string)
  : option string * option string :=
  parse_path (urlparse_path repo_url).

(** The check both callers make on the pair: [if not owner or not repo]. *)
Definition usable (r : option string * option string) : bool :=
  match r with
  | (Some owner, Some repo) =>
      negb (PyStr.is_empty owner) && negb (PyStr.is_empty repo)
  | _ => false
  end.

End RepoStructure.


(* ================================================================== *)
(** ** [log_analysis_function.py] *)
(* ================================================================== *)

Module LogAnalysis.

Local Open Scope Z_scope.

(** The ways a fetch can end under a fuel bound. *)
Inductive outcome (A : Type) : Type :=
| Done (a : A)
| Raised (e : exn)
| OutOfFuel.

Arguments Done {A} a.
Arguments Raised {A} e.
Arguments OutOfFuel {A}.

(** The dict the two fetch loops append for every event of a page. *)
Record LogEvent : Type := {
  log_group : string;
  timestamp : Z;
  message : string;
  type : string
}.

(** The dict [_fetch_logs_in_timeframe] returns. *)
Record LogBundle : Type := {
  logs : list LogEvent;
  total_events : nat;
  total_native : nat;
  log_summary : string
}.

(** *** Final assembly (lines 200-216 of [_fetch_logs_in_timeframe]) *)

(** [list.sort(key=lambda x: x['timestamp'])]: Python's sort is stable, and
    a stable sort has one result, so insertion from the right computes it:
    an entry goes in front of the first entry whose timestamp is not
    smaller. *)
Fixpoint insert (x : LogEvent) (l : list LogEvent) : list LogEvent :=
  match l with
  | [] => [x]
  | y :: r => if timestamp x <=? timestamp y then x :: l else y :: insert x r
  end.

Fixpoint sort_by_timestamp (l : list LogEvent) : list LogEvent :=
  match l with
  | [] => []
  | x :: r => insert x (sort_by_timestamp r)
  end.

(** [l[-n:]] for a positive [n]: the last [n] entries, all of [l] when it
    is shorter. *)
Definition last_n {A : Type} (n : nat) (l : list A) : list A :=
  skipn (List.length l - n) l.

(** [log.get('type') == 'event'] and [log.get('type') == 'native']. *)
Definition is_event (log : LogEvent) : bool := String.eqb (type log) "event".
Definition is_native (log : LogEvent) : bool := String.eqb (type log) "native".

(** [str(n)] for a length. *)
Definition str_of_nat (n : nat) : string :=
  DecimalString.NilZero.string_of_uint (Nat.to_uint n).

Definition sort_and_truncate (all_logs : list LogEvent) : LogBundle :=
  let all_logs := sort_by_timestamp all_logs in
  let event_logs := filter is_event all_logs in
  let native_logs := filter is_native all_logs in
  let final_logs := sort_by_timestamp (event_logs ++ last_n 50 native_logs) in
  {| logs := final_logs;
     total_events := List.length event_logs;
     total_native := List.length native_logs;
     log_summary := "Found " ++ str_of_nat (List.length event_logs)
                    ++ " events and " ++ str_of_nat (List.length native_logs)
                    ++ " native logs" |}.

(** *** The log store *)

(** The keyword arguments of [logs_client.get_log_events]. *)
Record GetLogEvents : Type := {
  logGroupName : string;
  logStreamName : string;
  startTime : Z;
  endTime : Z;
  nextToken : option string
}.

(** One entry of [response['events']]. *)
Record OutputLogEvent : Type := {
  ev_timestamp : Z;
  ev_message : string
}.

(** The response: [response['events']] and
    [response.get('nextForwardToken')]. *)
Record Page : Type := {
  page_events : list OutputLogEvent;
  nextForwardToken : option string
}.

(** One [get_log_events] call as it happened. *)
Record Call : Type := {
  request : GetLogEvents;
  response : result Page
}.

(** [not next_token]: the token is [None] or the empty string. *)
Definition no_token (next_token : option string) : bool :=
  match next_token with
  | None => true
  | Some t => PyStr.is_empty t
  end.

(** [is_event_log]: the group's name contains one of the keywords. *)
Definition is_event_log (log_group : string) : bool :=
  existsb (fun keyword => PyStr.contains keyword log_group)
          ["-event-log-group"].

Definition tag (log_group kind : string) (ev : OutputLogEvent) : LogEvent :=
  {| log_group := log_group;
     timestamp := ev_timestamp ev;
     message := ev_message ev;
     type := kind |}.

Section Store.

(** The upstream log store is any state machine: its next response may
    depend on everything it was asked before. *)
Variable St : Type.
Variable get_log_events : GetLogEvents -> St -> result Page * St.

(** [describe_log_streams(logGroupName=g, orderBy='LastEventTime',
    descending=True, limit=1)]: the [logStreamName] of each entry of
    [response['logStreams']]. *)
Variable describe_log_streams : string -> St -> result (list string) * St.

(** The state of a run: the store, and the [get_log_events] calls made so
    far (oldest first). *)
Record World : Type := {
  store : St;
  calls : list Call
}.

Definition fresh (s : St) : World := {| store := s; calls := [] |}.

Definition call_get_log_events (req : GetLogEvents) (w : World)
  : result Page * World :=
  let (r, s') := get_log_events req (store w) in
  (r, {| store := s';
         calls := calls w ++ [{| request := req; response := r |}] |}).

(** The [while True] loop of [_get_all_events_from_stream], one iteration
    per unit of fuel; [events] and [next_token] are the loop's variables. *)
Fixpoint all_events_loop (fuel : nat) (log_group stream_name : string)
    (start_ms end_ms : Z) (events : list LogEvent)
    (next_token : option string) (w : World)
  : outcome (list LogEvent) * World :=
  match fuel with
  | O => (OutOfFuel, w)
  | S fuel' =>
      let req := {| logGroupName := log_group;
                    logStreamName := stream_name;
                    startTime := start_ms;
                    endTime := end_ms;
                    nextToken := if no_token next_token then None
                                 else next_token |} in
      match call_get_log_events req w with
      | (Raise e, w') => (Raised e, w')
      | (Ok response, w') =>
          let events' :=
            events ++ map (tag log_group "event") (page_events response) in
          let next_token' := nextForwardToken response in
          if no_token next_token'
             || match page_events response with [] => true | _ => false end
          then (Done events', w')
          else all_events_loop fuel' log_group stream_name start_ms end_ms
                               events' next_token' w'
      end
  end.

Definition _get_all_events_from_stream (fuel : nat)
    (log_group stream_name : string) (start_ms end_ms : Z) (w : World)
  : outcome (list LogEvent) * World :=
  all_events_loop fuel log_group stream_name start_ms end_ms [] None w.

(** The [while True] loop of [_get_events_around_failure]: the same loop
    with the third stop condition [len(events) > 100]. *)
Fixpoint around_failure_loop (fuel : nat) (log_group stream_name : string)
    (start_ms end_ms : Z) (events : list LogEvent)
    (next_token : option string) (w : World)
  : outcome (list LogEvent) * World :=
  match fuel with
  | O => (OutOfFuel, w)
  | S fuel' =>
      let req := {| logGroupName := log_group;
                    logStreamName := stream_name;
                    startTime := start_ms;
                    endTime := end_ms;
                    nextToken := if no_token next_token then None
                                 else next_token |} in
      match call_get_log_events req w with
      | (Raise e, w') => (Raised e, w')
      | (Ok response, w') =>
          let events' :=
            events ++ map (tag log_group "native") (page_events response) in
          let next_token' := nextForwardToken response in
          if no_token next_token'
             || match page_events response with [] => true | _ => false end
             || (100 <? List.length events')%nat
          then (Done events', w')
          else around_failure_loop fuel' log_group stream_name start_ms end_ms
                                   events' next_token' w'
      end
  end.

Definition _get_events_around_failure (fuel : nat)
    (log_group stream_name : string) (start_ms end_ms : Z) (w : World)
  : outcome (list LogEvent) * World :=
  around_failure_loop fuel log_group stream_name start_ms end_ms [] None w.

(** The [try] body of the [for log_group in log_groups] loop: the events to
    extend [all_logs] with ([continue] on an empty stream list adds none). *)
Definition fetch_group (fuel : nat) (log_group : string)
    (start_ms end_ms : Z) (w : World)
  : outcome (list LogEvent) * World :=
  let (streams_response, s') := describe_log_streams log_group (store w) in
  let w' := {| store := s'; calls := calls w |} in
  match streams_response with
  | Raise e => (Raised e, w')
  | Ok [] => (Done [], w')
  | Ok (stream :: _) =>
      if is_event_log log_group
      then _get_all_events_from_stream fuel log_group stream
                                       start_ms end_ms w'
      else
        let failure_window_start := end_ms - (30 * 60 * 1000) in
        _get_events_around_failure fuel log_group stream
                                   failure_window_start end_ms w'
  end.

(** The [for] loop: an exception in one group is logged and the loop goes
    on ([except Exception: continue]); a loop that does not return leaves
    nothing to go on with. *)
Fixpoint fetch_groups (fuel : nat) (log_groups : list string)
    (start_ms end_ms : Z) (all_logs : list LogEvent) (w : World)
  : outcome (list LogEvent) * World :=
  match log_groups with
  | [] => (Done all_logs, w)
  | log_group :: rest =>
      match fetch_group fuel log_group start_ms end_ms w with
      | (Done events, w') =>
          fetch_groups fuel rest start_ms end_ms (all_logs ++ events) w'
      | (Raised _, w') => fetch_groups fuel rest start_ms end_ms all_logs w'
      | (OutOfFuel, w') => (OutOfFuel, w')
      end
  end.

(** Instants: a [datetime] is kept abstract; [epoch_ms t] is
    [int(t.timestamp() * 1000)], [utcnow] the reading of
    [datetime.utcnow()] and [minus_one_hour t] is [t - timedelta(hours=1)].
    A [datetime] object is always truthy, so [not t] holds for [None]
    only. *)
Variable datetime : Type.
Variable epoch_ms : datetime -> Z.
Variable utcnow : datetime.
Variable minus_one_hour : datetime -> datetime.

(** The window after the [if not start_time or not end_time] default. *)
Definition window (start_time end_time : option datetime)
  : datetime * datetime :=
  match start_time, end_time with
  | Some s, Some e => (s, e)
  | _, _ => (minus_one_hour utcnow, utcnow)
  end.

Definition _fetch_logs_in_timeframe (fuel : nat) (log_groups : list string)
    (start_time end_time : option datetime) (w : World)
  : outcome LogBundle * World :=
  let (start_time, end_time) := window start_time end_time in
  let start_ms := epoch_ms start_time in
  let end_ms := epoch_ms end_time in
  match fetch_groups fuel log_groups start_ms end_ms [] w with
  | (Done all_logs, w') => (Done (sort_and_truncate all_logs), w')
  | (Raised e, w') => (Raised e, w')
  | (OutOfFuel, w') => (OutOfFuel, w')
  end.

End Store.

Arguments store {St} w.
Arguments calls {St} w.
Arguments fresh {St} s.

(** *** Log-group resolution *)

Section Ssm.

(** [ssm_client.get_parameter(Name=path)]: the parameter's value, or the
    exception the client raises ([ParameterNotFound] for a missing key). *)
Variable get_parameter : string -> result string.

(** [str(v)] of an object that is not a string, as an f-string prints it. *)
Variable repr : value -> string.

(** An object inside an f-string. *)
Definition fmt (v : value) : string :=
  match v with
  | VStr s => s
  | _ => repr v
  end.

(** The [try: get_parameter ... except ParameterNotFound] block, run for
    each path in turn: a value that is blank after [strip()] is skipped, a
    missing key is a [ValueError], any other exception is not caught. *)
Fixpoint read_params (paths : list string) (log_groups : list string)
  : result (list string) :=
  match paths with
  | [] => Ok log_groups
  | param_path :: rest =>
      match get_parameter param_path with
      | Ok v =>
          let log_group := PyStr.strip v in
          read_params rest
            (if PyStr.is_empty log_group then log_groups
             else log_groups ++ [log_group])
      | Raise (ParameterNotFound _) =>
          Raise (ValueError ("SSM parameter not found: " ++ param_path))
      | Raise e => Raise e
      end
  end.

Definition param_prefix (pipeline_name stage_name action_name : value)
  : string :=
  "/pipeline/" ++ fmt pipeline_name ++ "/" ++ fmt stage_name ++ "/"
  ++ fmt action_name ++ "/".

(** [provider.lower()]: a method of [str] only. *)
Definition lower_of (provider : value) : result string :=
  match provider with
  | VStr s => Ok (PyStr.lower s)
  | _ => Raise (AttributeError "object has no attribute 'lower'")
  end.

Definition _get_log_groups_from_ssm (pipeline_name : value)
    (pipeline_event : value) : result (list string) :=
  detail <- get_default pipeline_event "detail" (VDict []) ;;
  stage_name <- get detail "stage" ;;
  action_name <- get detail "action" ;;
  type_ <- get_default detail "type" (VDict []) ;;
  provider <- get type_ "provider" ;;
  if negb (truthy stage_name) || negb (truthy action_name)
     || negb (truthy provider)
  then Raise (ValueError
         ("Missing required information in pipeline event - stage: "
          ++ fmt stage_name ++ ", action: " ++ fmt action_name
          ++ ", provider: " ++ fmt provider))
  else
    let prefix := param_prefix pipeline_name stage_name action_name in
    log_groups <-
      (if is_str "CodeBuild" provider
       then
         let event_param := (prefix ++ "codebuild-event-log-group")%string in
         let native_param := (prefix ++ "codebuild-native-log-group")%string in
         read_params [event_param; native_param] []
       else
         lowered <- lower_of provider ;;
         let param_path := (prefix ++ lowered ++ "-log-group")%string in
         read_params [param_path] []) ;;
    match log_groups with
    | [] => Raise (ValueError ("No log groups found for " ++ fmt provider
                               ++ " stage " ++ fmt stage_name))
    | _ => Ok log_groups
    end.

End Ssm.

End LogAnalysis.

(* ================================================================== *)
(** ** [solution_provider_function.py] *)
(* ================================================================== *)

Module SolutionProvider.

Section Identify.

(** [json.loads]: the decoded object, or the decoder's exception. *)
Variable json_loads : string -> result value.

(** [self._invoke_bedrock_simple(prompt, max_tokens=50)] for the prompt
    built from [error_data] and [available_files].  The method catches every
    exception of its own and then returns the string "Error"; what it
    returns otherwise is the [text] field of the model's reply, whatever
    object that is. *)
Variable _invoke_bedrock_simple : value -> value -> value.

(** The payload under a wrapper: [json.loads(d['body'])] when [d.get('body')]
    is a string, [d] itself otherwise. *)
Definition unwrap (d : value) : result value :=
  body <- get d "body" ;;
  match body with
  | VStr s => json_loads s
  | _ => Ok d
  end.

(** [repo_data.get('file_paths', [])] as the method computes it. *)
Definition available_files (repo_structure : value) : result value :=
  repo_data <- unwrap repo_structure ;;
  get_default repo_data "file_paths" (VList []).

(** [response.strip()] and then [strip] of the double quote: methods of
    [str] only. *)
Definition clean (response : value) : result string :=
  match response with
  | VStr s => Ok (PyStr.strip_char PyStr.dquote (PyStr.strip s))
  | _ => Raise (AttributeError "object has no attribute 'strip'")
  end.

(** The [try] body of [_identify_problematic_file]. *)
Definition identify (error_context repo_structure : value)
  : result (option string) :=
  error_data <- unwrap error_context ;;
  repo_data <- unwrap repo_structure ;;
  available_files <- get_default repo_data "file_paths" (VList []) ;;
  let response := _invoke_bedrock_simple error_data available_files in
  filename <- clean response ;;
  if String.eqb filename "NONE" then Ok None
  else
    listed <- str_in filename available_files ;;
    if negb listed then Ok None else Ok (Some filename).

(** The method: [except Exception: return None] around the body.  Its
    result is a [result] so that "it never raises" is a statement. *)
Definition _identify_problematic_file (error_context repo_structure : value)
  : result (option string) :=
  Ok (try_except (identify error_context repo_structure) (fun _ => None)).

End Identify.

(** The class's own copy of [_parse_github_url]. *)
Definition _parse_github_url (repo_url : string)
  : option string * option string :=
  let path_parts :=
    PyStr.split "/" (PyStr.strip_char "/" (RepoStructure.urlparse_path repo_url))
  in
  match path_parts with
  | p0 :: p1 :: _ => (Some p0, Some (PyStr.replace ".git" "" p1))
  | _ => (None, None)
  end.

End SolutionProvider.

(* ================================================================== *)
(** ** [supervisor_function.py] and the three stage entry points *)
(* ================================================================== *)

Module Supervisor.

Definition _extract_error_info (event : value) : result value :=
  detail <- get_default event "detail" (VDict []) ;;
  pipeline_name <- get_default detail "pipeline" (VStr "") ;;
  stage <- get_default detail "stage" (VStr "") ;;
  action <- get_default detail "action-name" (VStr "") ;;
  timestamp <- get_default event "time" (VStr "") ;;
  execution_result <- get_default detail "execution-result" (VDict []) ;;
  error_code <- get_default execution_result "error-code" (VStr "") ;;
  error_summary <-
    get_default execution_result "external-execution-summary" (VStr "") ;;
  Ok (VDict [("pipeline_name", pipeline_name);
             ("stage", stage);
             ("action", action);
             ("timestamp", timestamp);
             ("error_code", error_code);
             ("error_summary", error_summary)]).

Definition _aggregate_response (error_info solution : value) : result value :=
  name <- get error_info "pipeline_name" ;;
  stage <- get error_info "stage" ;;
  Ok (VDict [("status", VStr "success");
             ("pipeline_info", VDict [("name", name); ("stage", stage)]);
             ("solution_recommendations", VDict [("solution", solution)])]).

(** The response of a stage entry point. *)
Definition http (statusCode : Z) (body : string) : value :=
  VDict [("statusCode", VNum statusCode); ("body", VStr body)].

Section Stages.

(** [json.dumps], total on JSON-like objects. *)
Variable json_dumps : value -> string.

(** Building a stage's object (its boto3 clients), which happens inside the
    entry point's [try]. *)
Variable new_RepoStructureFunction : result unit.
Variable new_LogAnalysisFunction : result unit.
Variable new_SolutionProviderAgent : result unit.

(** The [try] bodies of the three stage methods, as functions of their
    arguments: every external call they make is behind these. *)
Variable repository_structure_body : value -> result value.
Variable logs_body : value -> value -> result value.
Variable solution_body : value -> value -> result value.

(** [get_pipeline_source_branch]: its client is built outside its [try]. *)
Variable get_pipeline_source_branch : value -> result value.

(** [RepoStructureFunction.analyze_repository_structure]. *)
Definition analyze_repository_structure (branch_name : value) : value :=
  try_except (repository_structure_body branch_name)
             (fun e => VDict [("error", VStr (str_of_exn e))]).

(** [LogAnalysisFunction.analyze_logs]. *)
Definition analyze_logs (error_info pipeline_event : value) : value :=
  try_except (logs_body error_info pipeline_event)
             (fun e => VDict [("error", VStr (str_of_exn e))]).

(** [SolutionProviderAgent._generate_solution]. *)
Definition _generate_solution (repo_structure error_context : value) : value :=
  try_except (solution_body repo_structure error_context)
             (fun e => VDict [("error", VStr "Failed to generate solution");
                              ("details", VStr (str_of_exn e));
                              ("problematic_file", VNone);
                              ("solution",
                               VStr "Unable to generate solution due to error")]).

Definition handle_repo_structure (event : value) : value :=
  try_except
    (branch_name <- get_default event "branch_name" (VDict []) ;;
     _ <- new_RepoStructureFunction ;;
     let result := analyze_repository_structure branch_name in
     Ok (http 200 (json_dumps result)))
    (fun e =>
       http 500 (json_dumps
         (VDict [("error",
                  VStr ("Repo structure function execution failed: "
                        ++ str_of_exn e))]))).

Definition handle_log_analysis (event : value) : value :=
  try_except
    (_ <- new_LogAnalysisFunction ;;
     error_info <- get_default event "error_info" (VDict []) ;;
     pipeline_event <- get_default event "pipeline_event" (VDict []) ;;
     let result := analyze_logs error_info pipeline_event in
     Ok (http 200 (json_dumps result)))
    (fun e =>
       http 500 (json_dumps
         (VDict [("error",
                  VStr ("Log analysis function execution failed: "
                        ++ str_of_exn e))]))).

Definition handle_solution_provider (event : value) : value :=
  try_except
    (_ <- new_SolutionProviderAgent ;;
     repo_structure <- get_default event "repo_structure" (VDict []) ;;
     error_context <- get_default event "error_context" (VDict []) ;;
     let result := _generate_solution repo_structure error_context in
     Ok (http 200 (json_dumps result)))
    (fun e =>
       http 500 (json_dumps
         (VDict [("error",
                  VStr ("Solution provider function execution failed: "
                        ++ str_of_exn e))]))).

(** The [try] body of [orchestrate_analysis]. *)
Definition orchestrate (payload : value) : result value :=
  pipeline_event <- get payload "event" ;;
  branch_name <- get_pipeline_source_branch pipeline_event ;;
  error_info <- _extract_error_info pipeline_event ;;
  let repo_structure :=
    handle_repo_structure (VDict [("branch_name", branch_name)]) in
  let analyzed_logs :=
    handle_log_analysis (VDict [("error_info", error_info);
                               ("pipeline_event", pipeline_event)]) in
  let solution :=
    handle_solution_provider (VDict [("error_context", analyzed_logs);
                                    ("repo_structure", repo_structure)]) in
  _aggregate_response error_info solution.

Definition orchestrate_analysis (payload : value) : value :=
  try_except (orchestrate payload)
             (fun e => VDict [("status", VStr "error");
                              ("message", VStr (str_of_exn e))]).

End Stages.

End Supervisor.

(* ================================================================== *)
(** ** [repo_structure_function.py]: the tree listing *)
(* ================================================================== *)

Module RepoTree.

(** One entry of [tree_data.get("tree", [])]: [item["path"]] and
    [item["type"]] ("blob" for a file, "tree" for a directory). *)
Record TreeItem : Type := {
  path : string;
  item_type : string
}.

(** What [_build_file_structure] builds: the string "file", or a dict from
    path segments to such values. *)
Inductive node : Type :=
| File
| Dir (entries : list (string * node)).

(** [part in d] and [d[part]] on a dict's entries. *)
Fixpoint entry_lookup (k : string) (d : list (string * node)) : option node :=
  match d with
  | [] => None
  | (k', v) :: r => if String.eqb k k' then Some v else entry_lookup k r
  end.

(** [d[part] = v]: an existing key keeps its place, a new one goes last. *)
Fixpoint entry_set (k : string) (v : node) (d : list (string * node))
  : list (string * node) :=
  match d with
  | [] => [(k, v)]
  | (k', v') :: r =>
      if String.eqb k k' then (k, v) :: r else (k', v') :: entry_set k v r
  end.

(** [item["type"] == "blob"]. *)
Definition is_blob (item : TreeItem) : bool :=
  String.eqb (item_type item) "blob".

(** ["file" if item["type"] == "blob" else {}]. *)
Definition leaf_of (item : TreeItem) : node :=
  if is_blob item then File else Dir [].

(** The inner [for i, part in enumerate(path_parts)] loop from
    [current_level = level] on: the last part is assigned the leaf, every
    other part is created as [{}] when absent and entered.  [current_level]
    aliases a dict inside [structure], so what the loop assigns below shows
    in the dict above: the function returns the level as it is afterwards.
    Entering the string "file" makes the next step raise [TypeError]
    (a string takes no item assignment and no string index). *)
Fixpoint insert_path (path_parts : list string) (leaf : node) (level : node)
  : result node :=
  match path_parts with
  | [] => Ok level
  | part :: rest =>
      match level with
      | File => Raise (TypeError "string does not support item access")
      | Dir d =>
          match rest with
          | [] => Ok (Dir (entry_set part leaf d))
          | _ :: _ =>
              let below := match entry_lookup part d with
                           | Some c => c
                           | None => Dir []
                           end in
              below' <- insert_path rest leaf below ;;
              Ok (Dir (entry_set part below' d))
          end
      end
  end.

(** [item["path"].split("/")]. *)
Definition parts_of (item : TreeItem) : list string :=
  PyStr.split "/" (path item).

(** The [for item in tree] loop. *)
Fixpoint build (tree : list TreeItem) (structure : node) : result node :=
  match tree with
  | [] => Ok structure
  | item :: rest =>
      structure' <- insert_path (parts_of item) (leaf_of item) structure ;;
      build rest structure'
  end.

Definition _build_file_structure (tree : list TreeItem) : result node :=
  build tree (Dir []).

Definition _extract_file_paths (tree : list TreeItem) : list string :=
  map path (filter is_blob tree).

(** Reading a path in a structure: [structure[p0][p1]...]. *)
Fixpoint lookup_path (path_parts : list string) (level : node)
  : option node :=
  match path_parts with
  | [] => Some level
  | part :: rest =>
      match level with
      | File => None
      | Dir d =>
          match entry_lookup part d with
          | Some c => lookup_path rest c
          | None => None
          end
      end
  end.

(** *** Dependency manifests *)

(** The [config_files] list of [_analyze_dependencies]. *)
Definition manifest_names : list string :=
  ["package.json"; "requirements.txt"; "pom.xml"; "build.gradle";
   "Dockerfile"].

(** [any(item["path"].endswith(cf) for cf in config_files)]. *)
Definition is_manifest (p : string) : bool :=
  existsb (fun cf => PyStr.endswith p cf) manifest_names.

(** [dependencies[k] = v] on a dict from paths to contents. *)
Fixpoint content_set (k v : string) (d : list (string * string))
  : list (string * string) :=
  match d with
  | [] => [(k, v)]
  | (k', v') :: r =>
      if String.eqb k k' then (k, v) :: r else (k', v') :: content_set k v r
  end.

Section Dependencies.

(** [self._get_file_content(owner, repo, path, access_token)] for the
    repository at hand: a request to the hosting API, which answers with
    the content or, on any failure, the string "[Unreadable]".  The host is
    a state machine of its own. *)
Variable Host : Type.
Variable _get_file_content : string -> Host -> string * Host.

Fixpoint dependencies_loop (tree : list TreeItem)
    (dependencies : list (string * string)) (h : Host)
  : list (string * string) * Host :=
  match tree with
  | [] => (dependencies, h)
  | item :: rest =>
      if is_manifest (path item)
      then let (content, h') := _get_file_content (path item) h in
           dependencies_loop rest
             (content_set (path item) content dependencies) h'
      else dependencies_loop rest dependencies h
  end.

Definition _analyze_dependencies (tree : list TreeItem) (h : Host)
  : list (string * string) * Host :=
  dependencies_loop tree [] h.

End Dependencies.

End RepoTree.

(* ================================================================== *)
(** ** [log_analysis_function.py]: the timeframe and [analyze_logs] *)
(* ================================================================== *)

Module LogAnalysisFlow.

(** A log entry and the bundle as the JSON-like dicts they are. *)
Definition log_value (e : LogAnalysis.LogEvent) : value :=
  VDict [("log_group", VStr (LogAnalysis.log_group e));
         ("timestamp", VNum (LogAnalysis.timestamp e));
         ("message", VStr (LogAnalysis.message e));
         ("type", VStr (LogAnalysis.type e))].

Definition bundle_value (b : LogAnalysis.LogBundle) : value :=
  VDict [("logs", VList (map log_value (LogAnalysis.logs b)));
         ("total_events", VNum (Z.of_nat (LogAnalysis.total_events b)));
         ("total_native", VNum (Z.of_nat (LogAnalysis.total_native b)));
         ("log_summary", VStr (LogAnalysis.log_summary b))].

(** [{"error": str(e)}]. *)
Definition error_payload (e : exn) : value :=
  VDict [("error", VStr (str_of_exn e))].

Section Flow.

Variable datetime : Type.

(** One entry of [page["pipelineExecutionSummaries"]]. *)
Record Execution : Type := {
  pipelineExecutionId : string;
  startTime : datetime;
  lastUpdateTime : datetime
}.

(** The pages the [list_pipeline_executions] paginator yields for
    [pipelineName=name], or the exception raised while they are read. *)
Variable list_pipeline_executions : value -> result (list (list Execution)).

(** [t.replace(tzinfo=timezone.utc)] when [t.tzinfo is None], [t]
    otherwise. *)
Variable as_utc : datetime -> datetime.

(** [t.isoformat()]. *)
Variable isoformat : datetime -> string.

Definition _get_pipeline_execution_timeframe (pipeline_event : value)
  : option datetime * option datetime :=
  try_except
    (detail <- get_default pipeline_event "detail" (VDict []) ;;
     pipeline_name <- get detail "pipeline" ;;
     execution_id <- get detail "execution-id" ;;
     if negb (truthy pipeline_name) || negb (truthy execution_id)
     then Ok (None, None)
     else
       pages <- list_pipeline_executions pipeline_name ;;
       let executions :=
         filter (fun e => is_str (pipelineExecutionId e) execution_id)
                (List.concat pages) in
       match executions with
       | first :: _ =>
           Ok (Some (as_utc (startTime first)),
               Some (as_utc (lastUpdateTime first)))
       | [] => Ok (None, None)
       end)
    (fun _ => (None, None)).

Variable St : Type.
Variable get_log_events :
  LogAnalysis.GetLogEvents -> St -> result LogAnalysis.Page * St.
Variable describe_log_streams : string -> St -> result (list string) * St.
Variable epoch_ms : datetime -> Z.
Variable utcnow : datetime.
Variable minus_one_hour : datetime -> datetime.
Variable get_parameter : string -> result string.
Variable repr : value -> string.

(** The second statement of [analyze_logs]:
    [self._get_log_groups_from_ssm(error_info.get("pipeline_name", ""),
    pipeline_event)]. *)
Definition resolve_groups (error_info pipeline_event : value)
  : result (list string) :=
  pipeline_name <- get_default error_info "pipeline_name" (VStr "") ;;
  LogAnalysis._get_log_groups_from_ssm get_parameter repr
    pipeline_name pipeline_event.

(** [t.isoformat() if t else None]. *)
Definition iso (t : option datetime) : value :=
  match t with
  | Some t => VStr (isoformat t)
  | None => VNone
  end.

(** The dict of the [return] statement. *)
Definition success_payload (log_streams : LogAnalysis.LogBundle)
    (start_time end_time : option datetime) (log_groups_list : list string)
    (pipeline_event : value) : result value :=
  detail <- get_default pipeline_event "detail" (VDict []) ;;
  failed_stage <- get detail "stage" ;;
  detail' <- get_default pipeline_event "detail" (VDict []) ;;
  failed_action <- get detail' "action-name" ;;
  Ok (VDict [("status", VStr "success");
             ("log_streams", bundle_value log_streams);
             ("execution_timeframe",
              VDict [("start_time", iso start_time);
                     ("end_time", iso end_time)]);
             ("log_groups_list", VList (map VStr log_groups_list));
             ("failed_stage", failed_stage);
             ("failed_action", failed_action)]).

(** [analyze_logs]: the three steps inside [try], and [except Exception as
    e: return {"error": str(e)}].  The log store's state is threaded
    through the fetch. *)
Definition analyze_logs (fuel : nat) (error_info pipeline_event : value)
    (w : LogAnalysis.World St)
  : LogAnalysis.outcome value * LogAnalysis.World St :=
  let (start_time, end_time) :=
    _get_pipeline_execution_timeframe pipeline_event in
  match resolve_groups error_info pipeline_event with
  | Raise e => (LogAnalysis.Done (error_payload e), w)
  | Ok log_groups_list =>
      match LogAnalysis._fetch_logs_in_timeframe St get_log_events
              describe_log_streams datetime epoch_ms utcnow minus_one_hour
              fuel log_groups_list start_time end_time w with
      | (LogAnalysis.Done log_streams, w') =>
          (LogAnalysis.Done
             (try_except
                (success_payload log_streams start_time end_time
                   log_groups_list pipeline_event)
                error_payload),
           w')
      | (LogAnalysis.Raised e, w') => (LogAnalysis.Done (error_payload e), w')
      | (LogAnalysis.OutOfFuel, w') => (LogAnalysis.OutOfFuel, w')
      end
  end.

End Flow.

End LogAnalysisFlow.

(* ================================================================== *)
(** ** Subscripts and iteration on Python objects *)
(* ================================================================== *)

Module PyItem.

(** [v[k]] for a string key: the value of a dict's key ([KeyError] when it
    is absent); a list or a string takes integer indices only, and the
    other objects take no subscript. *)
Definition subscript (v : value) (k : string) : result value :=
  match v with
  | VDict d =>
      match lookup k d with
      | Some x => Ok x
      | None => Raise (OtherError k)
      end
  | VList _ | VStr _ => Raise (TypeError "indices must be integers")
  | _ => Raise (TypeError "object is not subscriptable")
  end.

(** [v[0]]: the first element of a list, the first character of a string
    ([IndexError] when empty); a JSON dict has string keys only, so
    [KeyError]; the other objects take no subscript. *)
Definition first_item (v : value) : result value :=
  match v with
  | VList (x :: _) => Ok x
  | VList [] => Raise (OtherError "list index out of range")
  | VStr (String c _) => Ok (VStr (String c EmptyString))
  | VStr EmptyString => Raise (OtherError "string index out of range")
  | VDict _ => Raise (OtherError "0")
  | _ => Raise (TypeError "object is not subscriptable")
  end.

Fixpoint chars (s : string) : list value :=
  match s with
  | EmptyString => []
  | String c t => VStr (String c EmptyString) :: chars t
  end.

(** What [for x in v] goes through: the elements of a list, the keys of a
    dict, the characters of a string; the other objects are not
    iterable. *)
Definition iterate (v : value) : result (list value) :=
  match v with
  | VList l => Ok l
  | VDict d => Ok (map (fun kv => VStr (fst kv)) d)
  | VStr s => Ok (chars s)
  | _ => Raise (TypeError "object is not iterable")
  end.

End PyItem.

(* ================================================================== *)
(** ** [solution_provider_function.py]: the short model call *)
(* ================================================================== *)

Module ModelCall.

Section Invoke.

(** [json.loads(response.get("body").read())] for the request built from
    the prompt, i.e. from [error_data] and [available_files]: the decoded
    reply, or the exception raised by the call or the decoding. *)
Variable invoke_model : value -> value -> result value.

(** [_invoke_bedrock_simple]: the [text] of the first content block of the
    reply, "No response generated" when the block has none, and "Error"
    when anything raises. *)
Definition _invoke_bedrock_simple (error_data available_files : value)
  : value :=
  try_except
    (result <- invoke_model error_data available_files ;;
     content <- get_default result "content" (VList [VDict []]) ;;
     block <- PyItem.first_item content ;;
     get_default block "text" (VStr "No response generated"))
    (fun _ => VStr "Error").

End Invoke.

End ModelCall.

(* ================================================================== *)
(** ** [supervisor_function.py]: the source branch *)
(* ================================================================== *)

Module SourceBranch.

(** The [for action in source_actions] loop: the first action is returned
    from when its category is "Source" and its provider is
    "CodeStarSourceConnection"; a missing key raises. *)
Fixpoint find_branch (actions : list value) : result value :=
  match actions with
  | [] => Ok VNone
  | action :: rest =>
      action_type <- PyItem.subscript action "actionTypeId" ;;
      category <- PyItem.subscript action_type "category" ;;
      if is_str "Source" category
      then
        action_type' <- PyItem.subscript action "actionTypeId" ;;
        provider <- PyItem.subscript action_type' "provider" ;;
        if is_str "CodeStarSourceConnection" provider
        then
          configuration <- PyItem.subscript action "configuration" ;;
          PyItem.subscript configuration "BranchName"
        else find_branch rest
      else find_branch rest
  end.

(** [response["pipeline"]["stages"][0]["actions"]], as the loop goes
    through it. *)
Definition first_stage_actions (response : value) : result (list value) :=
  pipeline <- PyItem.subscript response "pipeline" ;;
  stages <- PyItem.subscript pipeline "stages" ;;
  source_stage <- PyItem.first_item stages ;;
  source_actions <- PyItem.subscript source_stage "actions" ;;
  PyItem.iterate source_actions.

Section Branch.

(** [boto3.client("codepipeline", ...)], built before the [try]. *)
Variable new_client : result unit.

(** [client.get_pipeline(name=pipeline_name)]. *)
Variable get_pipeline : value -> result value.

Definition get_pipeline_source_branch (pipeline_event : value)
  : result value :=
  _ <- new_client ;;
  Ok (try_except
        (detail <- get_default pipeline_event "detail" (VDict []) ;;
         pipeline_name <- get detail "pipeline" ;;
         if negb (truthy pipeline_name)
         then Raise (ValueError "Pipeline name not found in event")
         else
           response <- get_pipeline pipeline_name ;;
           actions <- first_stage_actions response ;;
           find_branch actions)
        (fun _ => VNone)).

End Branch.

End SourceBranch.

(* ================================================================== *)
(** * Vocabulary of the properties, and the runs they are tried on *)
(* ================================================================== *)

Section Vocabulary.

Import LogAnalysis.
Local Open Scope Z_scope.

(** *** Order of log entries *)

(** Ascending order of two entries, and the entries of one instant. *)
Definition ts_le (a b : LogEvent) : Prop := timestamp a <= timestamp b.
Definition at_time (t : Z) (e : LogEvent) : bool := timestamp e =? t.

(** A subsequence: the entries of the first list appear in the second, in
    the same relative order. *)
Inductive subseq {A : Type} : list A -> list A -> Prop :=
| subseq_nil : subseq [] []
| subseq_skip (x : A) (l l' : list A) : subseq l l' -> subseq l (x :: l')
| subseq_keep (x : A) (l l' : list A) : subseq l l' -> subseq (x :: l) (x :: l').

(** What "entries with duplicate timestamps keep their arrival order" says
    of a result [out] computed from the arrivals [all_logs]. *)
Definition arrival_order_kept (all_logs out : list LogEvent) : Prop :=
  forall t, subseq (filter (at_time t) out) (filter (at_time t) all_logs).

(** *** Requests and pages *)

(** The request an iteration sends. *)
Definition request_of (log_group stream_name : string) (start_ms end_ms : Z)
    (next_token : option string) : GetLogEvents :=
  {| logGroupName := log_group;
     logStreamName := stream_name;
     startTime := start_ms;
     endTime := end_ms;
     nextToken := if no_token next_token then None else next_token |}.

(** A page that lets a loop go on: it carries a token and events. *)
Definition goes_on (p : Page) : bool :=
  negb (no_token (nextForwardToken p))
  && match page_events p with [] => false | _ => true end.

(** Every request of a loop goes to the loop's group and stream with the
    loop's time range. *)
Definition aimed_at (g s : string) (a b : Z) (c : Call) : Prop :=
  logGroupName (request c) = g /\ logStreamName (request c) = s
  /\ startTime (request c) = a /\ endTime (request c) = b.

(** The event loop is still running after [fuel] iterations only if the
    store answered every one of them with a page that carries a token and
    events. *)
Definition kept_going (c : Call) : Prop :=
  match response c with
  | Ok page => goes_on page = true
  | Raise _ => False
  end.

(** The time range a request must carry, by the kind of its log group: the
    whole window [[start_ms, end_ms]] for an event-kind group, the 30
    minutes that end at [end_ms] for a native-kind one. *)
Definition in_window (start_ms end_ms : Z) (c : Call) : Prop :=
  if is_event_log (logGroupName (request c))
  then startTime (request c) = start_ms /\ endTime (request c) = end_ms
  else startTime (request c) = end_ms - 30 * 60 * 1000
       /\ endTime (request c) = end_ms.

(** *** Log entries and stores used as examples *)

(** Two entries of the same instant, one of each kind. *)
Definition native_at_5 : LogEvent :=
  {| log_group := "/aws/codebuild/app"; timestamp := 5;
     message := "BUILD FAILED"; type := "native" |}.

Definition event_at_5 : LogEvent :=
  {| log_group := "app-event-log-group"; timestamp := 5;
     message := "state change"; type := "event" |}.

(** The specification's scenario: an execution window of five minutes, one
    event-kind entry after one minute and 120 native-kind entries spread
    over the window (one every 2.5 seconds), fetched event group first. *)
Definition scenario_logs : list LogEvent :=
  {| log_group := "app-event-log-group"; timestamp := 60000;
     message := "state change"; type := "event" |}
  :: map (fun n => {| log_group := "/aws/codebuild/app";
                      timestamp := Z.of_nat n * 2500;
                      message := "line"; type := "native" |})
         (seq 0 120).

(** A store that never ends a stream: its [n]-th response is a page with
    one event and a token not handed out before. *)
Definition chatty (req : GetLogEvents) (n : nat) : result Page * nat :=
  (Ok {| page_events := [{| ev_timestamp := Z.of_nat n;
                            ev_message := "line" |}];
         nextForwardToken := Some ("f/" ++ str_of_nat n)%string |},
   S n).

(** A store with one event in every stream, stamped with the end of the
    requested range. *)
Definition single (req : GetLogEvents) (s : unit) : result Page * unit :=
  (Ok {| page_events := [{| ev_timestamp := endTime req;
                            ev_message := "line" |}];
         nextForwardToken := None |},
   s).

(** A store whose only page holds 150 events and no token. *)
Definition burst (req : GetLogEvents) (s : unit) : result Page * unit :=
  (Ok {| page_events :=
           map (fun n => {| ev_timestamp := Z.of_nat n; ev_message := "line" |})
               (seq 0 150);
         nextForwardToken := None |},
   s).

(** One stream per group, whatever the group. *)
Definition one_stream {T : Type} (g : string) (s : T)
  : result (list string) * T :=
  (Ok ["stream-1"%string], s).

(** The events of an outcome. *)
Definition events_of (o : outcome (list LogEvent)) : list LogEvent :=
  match o with
  | Done l => l
  | _ => []
  end.

(** A run over a native-kind group followed by an event-kind group, for an
    execution window of one hour; instants are their epoch milliseconds. *)
Definition hour_run : outcome LogBundle * World unit :=
  _fetch_logs_in_timeframe unit single one_stream
    Z (fun t => t) 7200000 (fun t => t - 3600000)
    5 ["/aws/codebuild/app"; "app-event-log-group"]%string
    (Some 0) (Some 3600000) (fresh tt).

(** The native fetch against the store that never ends a stream. *)
Definition chatty_native_run : outcome (list LogEvent) * World nat :=
  _get_events_around_failure nat chatty 101
    "/aws/codebuild/app" "stream-1" 0 1800000 (fresh 0%nat).

End Vocabulary.

(** *** Failure events and parameter stores *)

(** The failure event carries these three fields. *)
Definition failure_of (pipeline_event stage_name action_name provider : value)
  : Prop :=
  exists detail type_,
    get_default pipeline_event "detail" (VDict []) = Ok detail
    /\ get detail "stage" = Ok stage_name
    /\ get detail "action" = Ok action_name
    /\ get_default detail "type" (VDict []) = Ok type_
    /\ get type_ "provider" = Ok provider.

(** A parameter store holding the given name-value pairs. *)
Fixpoint ssm_of (entries : list (string * string)) (name : string)
  : result string :=
  match entries with
  | [] => Raise (ParameterNotFound name)
  | (k, v) :: rest => if String.eqb name k then Ok v else ssm_of rest name
  end.

(** A failure event of the build provider. *)
Definition build_failure : value :=
  VDict [("detail",
          VDict [("pipeline", VStr "app");
                 ("stage", VStr "Build");
                 ("action", VStr "Compile");
                 ("type", VDict [("provider", VStr "CodeBuild")])])].

(** The two keys resolution looks up for it in pipeline [app]. *)
Definition event_param : string :=
  "/pipeline/app/Build/Compile/codebuild-event-log-group".
Definition native_param : string :=
  "/pipeline/app/Build/Compile/codebuild-native-log-group".

(** Both parameters present, both with a log-group name. *)
Definition ssm_both : string -> result string :=
  ssm_of [(event_param, "/codepipeline/app/Build/Compile/CodeBuild/proj ");
          (native_param, "/aws/codebuild/proj")].

(** Both parameters present, the native one blank. *)
Definition ssm_blank_native : string -> result string :=
  ssm_of [(event_param, "/codepipeline/app/Build/Compile/CodeBuild/proj");
          (native_param, "   ")].

(** A stand-in for [str()] of objects that are not strings (the events
    used here hold strings only). *)
Definition no_repr (v : value) : string := "<object>".

(** *** The model's answer and repository payloads *)

(** The model's answer after the two [strip] calls. *)
Definition cleaned (s : string) : string :=
  PyStr.strip_char PyStr.dquote (PyStr.strip s).

(** A run of the identifier: the repository structure arrives wrapped, the
    model answers with a quoted filename of the list. *)
Definition repo_files : list value :=
  [VStr "src/app.py"; VStr "template.yaml"; VStr "buildspec.yml"].

Definition decode_repo (s : string) : result value :=
  if String.eqb s "<repo>"
  then Ok (VDict [("status", VStr "success"); ("file_paths", VList repo_files)])
  else Raise (ValueError "Expecting value").

Definition wrapped_repo : value :=
  VDict [("statusCode", VNum 200); ("body", VStr "<repo>")].

Definition logs_error : value := VDict [("error", VStr "No log groups")].

Definition answers (s : string) (error_data available : value) : value :=
  VStr s.

Definition quoted_template : string :=
  " " ++ String PyStr.dquote "template.yaml" ++ String PyStr.dquote " ".

(** *** File classification *)

(** The tree of the end-to-end scenario. *)
Definition scenario_tree : list string :=
  ["src/app.py"; "requirements.txt"; "Dockerfile"].

(** The four predicates on one path: config, source, build, deployment. *)
Definition classify (path : string) : bool * bool * bool * bool :=
  (RepoStructure._is_config_file path, RepoStructure._is_source_file path,
   RepoStructure._is_build_file path,
   RepoStructure._is_deployment_file path).

(** *** Stage responses *)

(** The body of a stage response that reports the exception [e]. *)
Definition error_body (json_dumps : value -> string) (e : exn) : string :=
  json_dumps (VDict [("error", VStr (str_of_exn e))]).

(** A run in which every stage fails: the repository credentials are
    missing, log-group resolution raises, and the model call raises. *)
Definition failing_repo (branch_name : value) : result value :=
  Raise (OtherError "Failed to retrieve GitHub credentials").
Definition failing_logs (error_info pipeline_event : value) : result value :=
  Raise (ValueError "SSM parameter not found").
Definition failing_solution (repo_structure error_context : value)
  : result value :=
  Raise (OtherError "model unavailable").
Definition main_branch (pipeline_event : value) : result value :=
  Ok (VStr "main").

(** A stand-in for [json.dumps], enough to tell the bodies apart. *)
Definition dumps_error (v : value) : string :=
  match v with
  | VDict (("error", VStr m) :: _) => "{error: " ++ m ++ "}"
  | _ => "{...}"
  end.

Definition failure_payload : value := VDict [("event", build_failure)].

(** The entry point's response when every stage fails. *)
Definition all_stages_fail : value :=
  Supervisor.orchestrate_analysis dumps_error (Ok tt) (Ok tt) (Ok tt)
    failing_repo failing_logs failing_solution main_branch failure_payload.


(** *** Pages served and tokens passed on *)

Section Vocabulary_pages.

Import LogAnalysis.

(** The events of the pages a list of calls was answered with, in order. *)
Definition served (cs : list Call) : list OutputLogEvent :=
  flat_map (fun c => match response c with
                     | Ok page => page_events page
                     | Raise _ => []
                     end) cs.

(** A chain of requests: the first carries [tok] (none when [tok] is empty
    or absent), each later one the token of the response before it, and
    nothing follows a call that raised. *)
Fixpoint chained (tok : option string) (cs : list Call) : Prop :=
  match cs with
  | [] => True
  | c :: rest =>
      nextToken (request c) = (if no_token tok then None else tok)
      /\ match response c with
         | Ok page => chained (nextForwardToken page) rest
         | Raise _ => rest = []
         end
  end.

(** The kind the fetch gives the entries of a log group. *)
Definition kind_of (log_group : string) : string :=
  if is_event_log log_group then "event" else "native".

(** An entry comes from one of the groups and has that group's kind. *)
Definition from_groups (log_groups : list string) (e : LogEvent) : Prop :=
  In (log_group e) log_groups /\ type e = kind_of (log_group e).

End Vocabulary_pages.

(** *** Tree listings *)

Section Vocabulary_tree.

Import RepoTree.

(** [p] is an initial part of [q]: [q] is at or below [p]. *)
Fixpoint is_prefix (p q : list string) : bool :=
  match p, q with
  | [], _ => true
  | _ :: _, [] => false
  | a :: p', b :: q' => String.eqb a b && is_prefix p' q'
  end.

(** [b] may be listed after [a]: [b] is not at or above [a] (a directory
    comes before what it contains, and no path comes twice), and [b] is not
    at or below [a] when [a] is a file. *)
Definition may_follow (a b : TreeItem) : bool :=
  negb (is_prefix (parts_of b) (parts_of a))
  && (negb (is_blob a) || negb (is_prefix (parts_of a) (parts_of b))).

(** A listing in which every entry may follow all the entries before it,
    as a recursive listing of a directory tree is. *)
Fixpoint well_listed (tree : list TreeItem) : bool :=
  match tree with
  | [] => true
  | a :: rest => forallb (may_follow a) rest && well_listed rest
  end.

(** A small repository, listed directories first. *)
Definition small_tree : list TreeItem :=
  [ {| path := "src"; item_type := "tree" |};
    {| path := "src/app.py"; item_type := "blob" |};
    {| path := "requirements.txt"; item_type := "blob" |};
    {| path := "Dockerfile"; item_type := "blob" |} ].


(** A host that answers every content request with the path in brackets
    and counts the requests. *)
Definition echo_host (p : string) (n : nat) : string * nat :=
  (("<" ++ p ++ ">")%string, S n).

End Vocabulary_tree.

(** *** Runs of the log analysis, the identifier and the branch lookup *)

(** A registry of two pages; instants are their epoch milliseconds. *)
Definition registry (name : value)
  : result (list (list (LogAnalysisFlow.Execution Z))) :=
  Ok [ [ {| LogAnalysisFlow.pipelineExecutionId := "x-1";
            LogAnalysisFlow.startTime := 100%Z;
            LogAnalysisFlow.lastUpdateTime := 200%Z |} ];
       [ {| LogAnalysisFlow.pipelineExecutionId := "x-2";
            LogAnalysisFlow.startTime := 1000%Z;
            LogAnalysisFlow.lastUpdateTime := 2000%Z |};
         {| LogAnalysisFlow.pipelineExecutionId := "x-2";
            LogAnalysisFlow.startTime := 5%Z;
            LogAnalysisFlow.lastUpdateTime := 6%Z |} ] ].

(** A build failure of execution [x-2]. *)
Definition build_failure_x2 : value :=
  VDict [("detail",
          VDict [("pipeline", VStr "app");
                 ("execution-id", VStr "x-2");
                 ("stage", VStr "Build");
                 ("action", VStr "Compile");
                 ("type", VDict [("provider", VStr "CodeBuild")])])].

(** [str()] of [None], and a placeholder for the other objects. *)
Definition repr_none (v : value) : string :=
  match v with
  | VNone => "None"
  | _ => "<object>"
  end.

(** The log analysis of an event over the registry, the single-event store
    and a parameter store. *)
Definition analysis_run (get_parameter : string -> result string)
    (pipeline_event : value)
  : LogAnalysis.outcome value * LogAnalysis.World unit :=
  LogAnalysisFlow.analyze_logs Z registry (fun t => t) (fun t => "T")
    unit single one_stream (fun t => t) 7200000%Z (fun t => (t - 3600000)%Z)
    ssm_both repr_none 5 (VDict [("pipeline_name", VStr "app")])
    pipeline_event (LogAnalysis.fresh tt).

(** A model call that always raises. *)
Definition model_down (error_data available_files : value) : result value :=
  Raise (OtherError "ThrottlingException").

(** A repository payload listing a file named "Error". *)
Definition repo_with_Error : value :=
  VDict [("file_paths", VList [VStr "src/app.py"; VStr "Error"])].

(** A pipeline whose first stage has a GitHub source action on [main],
    after an S3 source action. *)
Definition pipeline_response : value :=
  VDict [("pipeline",
    VDict [("stages",
      VList [VDict [("actions",
        VList [VDict [("actionTypeId",
                       VDict [("category", VStr "Source");
                              ("provider", VStr "S3")]);
                      ("configuration", VDict [("S3Bucket", VStr "b")])];
               VDict [("actionTypeId",
                       VDict [("category", VStr "Source");
                              ("provider", VStr "CodeStarSourceConnection")]);
                      ("configuration",
                       VDict [("BranchName", VStr "main")])]])]])])].

Definition pipeline_store (name : value) : result value :=
  Ok pipeline_response.

(** ** What the further properties speak of *)

(** A string that does not begin with a character that [p] strips. *)
Definition starts_clean (p : ascii -> bool) (s : string) : Prop :=
  match s with
  | EmptyString => True
  | String c _ => p c = false
  end.

(** A group identifier as resolution returns them: the trimmed, non-blank
    value of a parameter of the store. *)
Definition stored_identifier (get_parameter : string -> result string)
    (g : string) : Prop :=
  g <> "" /\ PyStr.strip g = g
  /\ exists path v, get_parameter path = Ok v /\ g = PyStr.strip v.

(** An event without a [detail]. *)
Definition bare_event : value := VDict [].


Section Vocabulary_structure.

Import RepoTree.

(** The level below [part]: the one there, or the [{}] created for it. *)
Definition below (part : string) (d : list (string * node)) : node :=
  match entry_lookup part d with
  | Some c => c
  | None => Dir []
  end.

(** A structure whose files are the files of the entries listed so far. *)
Definition files_are (s : node) (listed : list TreeItem) : Prop :=
  (exists d, s = Dir d)
  /\ forall q, lookup_path q s = Some File
               <-> In q (map parts_of (filter is_blob listed)).

End Vocabulary_structure.

(** The event's fields can be read: the event is a dict, its detail (when
    it has one) is a dict, and so is the detail's execution result. *)
Definition readable (pipeline_event : value) : Prop :=
  exists detail execution_result,
    get_default pipeline_event "detail" (VDict []) = Ok (VDict detail)
    /\ get_default (VDict detail) "execution-result" (VDict [])
       = Ok (VDict execution_result).

(** A source action of the repository connection, and its branch. *)
Definition connection_action (action branch : value) : Prop :=
  exists action_type configuration,
    PyItem.subscript action "actionTypeId" = Ok action_type
    /\ PyItem.subscript action_type "category" = Ok (VStr "Source")
    /\ PyItem.subscript action_type "provider"
       = Ok (VStr "CodeStarSourceConnection")
    /\ PyItem.subscript action "configuration" = Ok configuration
    /\ PyItem.subscript configuration "BranchName" = Ok branch.

(* ================================================================== *)
(** * Properties *)
(* ================================================================== *)

(** ** Python strings and URLs on small inputs *)

Example lower_Dockerfile : PyStr.lower "Dockerfile" = "dockerfile".
Proof. reflexivity. Qed.

Example split_path : PyStr.split "/" "owner/repo.git" = ["owner"; "repo.git"].
Proof. reflexivity. Qed.

Example split_empty : PyStr.split "/" "" = [""].
Proof. reflexivity. Qed.

Example replace_git : PyStr.replace ".git" "" "a.git.b.gitc" = "a.bc".
Proof. reflexivity. Qed.

Example strip_answer :
  PyStr.strip_char PyStr.dquote
    (PyStr.strip (" " ++ String PyStr.dquote "template.yaml"
                      ++ String PyStr.dquote "  "))
  = "template.yaml".
Proof. reflexivity. Qed.

Example urlparse_path_https :
  RepoStructure.urlparse_path "https://github.com/owner/repo.git?x=1#frag"
  = "/owner/repo.git".
Proof. reflexivity. Qed.

Example parse_github_url_docstring :
  RepoStructure._parse_github_url "https://github.com/owner/repo.git"
  = (Some "owner", Some "repo").
Proof. reflexivity. Qed.

Example parse_github_url_one_segment :
  RepoStructure._parse_github_url "https://github.com/owner" = (None, None).
Proof. reflexivity. Qed.

(** ** The stable sort by timestamp *)

Section SortFacts.

Import LogAnalysis.
Local Open Scope Z_scope.

Lemma insert_perm (x : LogEvent) (l : list LogEvent) :
  Permutation (insert x l) (x :: l).
Proof.
  induction l as [|y r IH]; simpl; [reflexivity|].
  destruct (timestamp x <=? timestamp y); [reflexivity|].
  rewrite IH. apply perm_swap.
Qed.

Lemma sort_perm (l : list LogEvent) : Permutation (sort_by_timestamp l) l.
Proof.
  induction l as [|x r IH]; simpl; [reflexivity|].
  rewrite insert_perm. now constructor.
Qed.

Lemma sort_length (l : list LogEvent) :
  List.length (sort_by_timestamp l) = List.length l.
Proof. apply Permutation_length, sort_perm. Qed.

Lemma insert_sorted (x : LogEvent) (l : list LogEvent) :
  StronglySorted ts_le l -> StronglySorted ts_le (insert x l).
Proof.
  induction 1 as [|y r Hr IH Hy]; simpl.
  - repeat constructor.
  - destruct (timestamp x <=? timestamp y) eqn:E.
    + apply Z.leb_le in E. constructor; [now constructor|].
      constructor; [exact E|].
      eapply Forall_impl; [|exact Hy]. unfold ts_le. intros; lia.
    + apply Z.leb_gt in E. constructor; [exact IH|].
      apply (Permutation_Forall (Permutation_sym (insert_perm x r))).
      constructor; [unfold ts_le; lia | exact Hy].
Qed.

Lemma sort_sorted (l : list LogEvent) :
  StronglySorted ts_le (sort_by_timestamp l).
Proof.
  induction l; simpl; [constructor | now apply insert_sorted].
Qed.

(** An entry not later than everything in the list goes in front. *)
Lemma insert_front (x : LogEvent) (l : list LogEvent) :
  Forall (ts_le x) l -> insert x l = x :: l.
Proof.
  destruct 1 as [|y r Hy _]; simpl; [reflexivity|].
  unfold ts_le in Hy. apply Z.leb_le in Hy. now rewrite Hy.
Qed.

(** Sorting a sorted list changes nothing. *)
Lemma sort_sorted_id (l : list LogEvent) :
  StronglySorted ts_le l -> sort_by_timestamp l = l.
Proof.
  induction 1 as [|x r Hr IH Hx]; simpl; [reflexivity|].
  rewrite IH. now apply insert_front.
Qed.

Lemma filter_sorted (p : LogEvent -> bool) (l : list LogEvent) :
  StronglySorted ts_le l -> StronglySorted ts_le (filter p l).
Proof.
  induction 1 as [|x r Hr IH Hx]; simpl; [constructor|].
  destruct (p x); [|exact IH].
  constructor; [exact IH|].
  apply Forall_forall. intros y Hy. apply filter_In in Hy.
  rewrite Forall_forall in Hx. now apply Hx.
Qed.

Lemma skipn_sorted (n : nat) (l : list LogEvent) :
  StronglySorted ts_le l -> StronglySorted ts_le (skipn n l).
Proof.
  intros H. revert n. induction H as [|x r Hr IH Hx]; intros [|n]; simpl;
    try constructor; auto.
Qed.

(** On a sorted list, inserting commutes with filtering. *)
Lemma filter_insert (p : LogEvent -> bool) (x : LogEvent) (l : list LogEvent) :
  StronglySorted ts_le l ->
  filter p (insert x l)
  = if p x then insert x (filter p l) else filter p l.
Proof.
  induction 1 as [|y r Hr IH Hy]; simpl.
  - now destruct (p x).
  - destruct (timestamp x <=? timestamp y) eqn:E; simpl.
    + apply Z.leb_le in E. destruct (p x) eqn:Px; [|reflexivity].
      symmetry. apply insert_front.
      assert (Hall : Forall (ts_le x) (y :: r)).
      { constructor; [exact E|].
        eapply Forall_impl; [|exact Hy]. unfold ts_le. intros; lia. }
      apply Forall_forall. intros z Hz.
      rewrite Forall_forall in Hall. apply Hall.
      change (In z (filter p (y :: r))) in Hz.
      now apply filter_In in Hz.
    + rewrite IH. destruct (p y) eqn:Py, (p x) eqn:Px; simpl;
        try rewrite E; reflexivity.
Qed.

(** The stable sort commutes with filtering. *)
Lemma filter_sort (p : LogEvent -> bool) (l : list LogEvent) :
  filter p (sort_by_timestamp l) = sort_by_timestamp (filter p l).
Proof.
  induction l as [|x r IH]; simpl; [reflexivity|].
  rewrite filter_insert by apply sort_sorted.
  destruct (p x); simpl; now rewrite IH.
Qed.

(** Stability: the entries of one instant keep their order. *)
Lemma at_time_insert (t : Z) (x : LogEvent) (l : list LogEvent) :
  filter (at_time t) (insert x l)
  = if at_time t x then x :: filter (at_time t) l else filter (at_time t) l.
Proof.
  induction l as [|y r IH]; simpl; [reflexivity|].
  destruct (timestamp x <=? timestamp y) eqn:E; simpl; [reflexivity|].
  rewrite IH. apply Z.leb_gt in E.
  unfold at_time. destruct (timestamp x =? t) eqn:Ex; [|reflexivity].
  apply Z.eqb_eq in Ex.
  destruct (timestamp y =? t) eqn:Ey; [|reflexivity].
  apply Z.eqb_eq in Ey. lia.
Qed.

Lemma sort_stable (t : Z) (l : list LogEvent) :
  filter (at_time t) (sort_by_timestamp l) = filter (at_time t) l.
Proof.
  induction l as [|x r IH]; simpl; [reflexivity|].
  rewrite at_time_insert, IH. reflexivity.
Qed.

(** [l[-n:]] keeps [min(len(l), n)] entries, and they are a tail of [l]. *)
Lemma last_n_length {A : Type} (n : nat) (l : list A) :
  List.length (last_n n l) = Nat.min (List.length l) n.
Proof. unfold last_n. rewrite length_skipn. lia. Qed.

Lemma last_n_tail {A : Type} (n : nat) (l : list A) :
  exists dropped, l = dropped ++ last_n n l.
Proof.
  exists (firstn (List.length l - n) l). unfold last_n.
  now rewrite firstn_skipn.
Qed.

Lemma filter_comm {A : Type} (p q : A -> bool) (l : list A) :
  filter p (filter q l) = filter q (filter p l).
Proof.
  induction l as [|x r IH]; simpl; [reflexivity|].
  destruct (p x) eqn:Px, (q x) eqn:Qx; simpl;
    rewrite ?Px, ?Qx, IH; reflexivity.
Qed.

Lemma filter_none {A : Type} (p : A -> bool) (l : list A) :
  Forall (fun x => p x = false) l -> filter p l = [].
Proof.
  induction 1 as [|x r Hx _ IH]; simpl; [reflexivity|]. now rewrite Hx.
Qed.

Lemma filter_all {A : Type} (p : A -> bool) (l : list A) :
  Forall (fun x => p x = true) l -> filter p l = l.
Proof.
  induction 1 as [|x r Hx _ IH]; simpl; [reflexivity|]. now rewrite Hx, IH.
Qed.

Lemma native_not_event (log : LogEvent) :
  is_native log = true -> is_event log = false.
Proof.
  unfold is_native, is_event. intros H. apply String.eqb_eq in H.
  now rewrite H.
Qed.

End SortFacts.

(** ** The final bundle: what is kept, and in which order *)

Section Bundle.

Import LogAnalysis.
Local Open Scope Z_scope.

Lemma event_not_native (log : LogEvent) :
  is_event log = true -> is_native log = false.
Proof.
  unfold is_native, is_event. intros H. apply String.eqb_eq in H.
  now rewrite H.
Qed.

Lemma filter_idem {A : Type} (p : A -> bool) (l : list A) :
  filter p (filter p l) = filter p l.
Proof.
  apply filter_all, Forall_forall. intros x Hx. now apply filter_In in Hx.
Qed.

Lemma in_skipn {A : Type} (n : nat) (l : list A) (x : A) :
  In x (skipn n l) -> In x l.
Proof.
  intros H. rewrite <- (firstn_skipn n l). apply in_or_app. now right.
Qed.

Lemma filter_skipn_none {A : Type} (p q : A -> bool) (n : nat) (l : list A) :
  (forall x, q x = true -> p x = false) ->
  filter p (skipn n (filter q l)) = [].
Proof.
  intros Hpq. apply filter_none, Forall_forall. intros x Hx.
  apply Hpq. apply in_skipn in Hx. now apply filter_In in Hx.
Qed.

Lemma filter_skipn_all {A : Type} (p : A -> bool) (n : nat) (l : list A) :
  filter p (skipn n (filter p l)) = skipn n (filter p l).
Proof.
  apply filter_all, Forall_forall. intros x Hx.
  apply in_skipn in Hx. now apply filter_In in Hx.
Qed.

(** The event entries of the bundle, and its native entries. *)
Lemma bundle_events (all_logs : list LogEvent) :
  filter is_event (logs (sort_and_truncate all_logs))
  = sort_by_timestamp (filter is_event all_logs).
Proof.
  unfold sort_and_truncate, last_n; simpl.
  rewrite filter_sort, filter_app, filter_idem.
  rewrite (filter_skipn_none is_event is_native) by apply native_not_event.
  rewrite app_nil_r, filter_sort.
  apply sort_sorted_id, sort_sorted.
Qed.

Lemma bundle_natives (all_logs : list LogEvent) :
  filter is_native (logs (sort_and_truncate all_logs))
  = last_n 50 (sort_by_timestamp (filter is_native all_logs)).
Proof.
  unfold sort_and_truncate, last_n; simpl.
  rewrite filter_sort, filter_app.
  rewrite (filter_none is_native (filter is_event _)).
  2:{ apply Forall_forall. intros x Hx. apply filter_In in Hx.
      now apply event_not_native. }
  simpl. rewrite filter_skipn_all.
  rewrite sort_sorted_id.
  - now rewrite filter_sort.
  - apply skipn_sorted, filter_sorted, sort_sorted.
Qed.

(** C1.  For every list of fetched log events (in arrival order), the
    bundle's [logs] holds [total_events + min(total_native, 50)] entries,
    the two totals count the event-kind and native-kind entries that were
    fetched, the event-kind entries of [logs] are all the fetched ones
    (sorted by timestamp), and its native-kind entries are exactly the last
    50 (all, when there are fewer) of the fetched ones sorted by
    timestamp. *)
Theorem bundle_keeps_events_and_last_50_native (all_logs : list LogEvent) :
  let bundle := sort_and_truncate all_logs in
  List.length (logs bundle)
  = (total_events bundle + Nat.min (total_native bundle) 50)%nat
  /\ total_events bundle = List.length (filter is_event all_logs)
  /\ total_native bundle = List.length (filter is_native all_logs)
  /\ filter is_event (logs bundle)
     = sort_by_timestamp (filter is_event all_logs)
  /\ filter is_native (logs bundle)
     = last_n 50 (sort_by_timestamp (filter is_native all_logs)).
Proof.
  intros bundle. subst bundle.
  split; [|split; [|split; [|split]]].
  - unfold sort_and_truncate; simpl.
    now rewrite sort_length, length_app, last_n_length.
  - unfold sort_and_truncate; simpl. now rewrite filter_sort, sort_length.
  - unfold sort_and_truncate; simpl. now rewrite filter_sort, sort_length.
  - apply bundle_events.
  - apply bundle_natives.
Qed.

(** The scenario's bundle: 1 event entry and the latest 50 native entries,
    with [total_native] still 120. *)
Example scenario_bundle :
  let bundle := sort_and_truncate scenario_logs in
  List.length (logs bundle) = 51%nat
  /\ total_events bundle = 1%nat /\ total_native bundle = 120%nat
  /\ map timestamp (filter is_native (logs bundle))
     = map (fun n => Z.of_nat n * 2500) (seq 70 50)
  /\ log_summary bundle = "Found 1 events and 120 native logs"%string.
Proof. vm_compute. repeat split; reflexivity. Qed.

Example bundle_of_tie :
  logs (sort_and_truncate [native_at_5; event_at_5])
  = [event_at_5; native_at_5].
Proof. reflexivity. Qed.

(** C4, counterexample.  A native-kind entry that arrives before an
    event-kind entry with the same timestamp ends up behind it. *)
Lemma tie_across_kinds_is_reordered :
  ~ arrival_order_kept [native_at_5; event_at_5]
      (logs (sort_and_truncate [native_at_5; event_at_5])).
Proof.
  intros H. specialize (H 5). vm_compute in H.
  inversion H as [| x l l' H1 | x l l' H1]; subst.
  inversion H1 as [| x l l' H2 | x l l' H2]; subst; inversion H2.
Qed.

(** C4, as the code has it.  [logs] is sorted by timestamp ascending for
    every input; among the entries of one timestamp, the event-kind entries
    come first, in arrival order, and the native-kind entries that were
    kept follow them, in arrival order too (they are the latest arrivals of
    that timestamp among the native-kind entries). *)
Theorem bundle_sorted_ties_by_kind_then_arrival (all_logs : list LogEvent) :
  let bundle := sort_and_truncate all_logs in
  StronglySorted ts_le (logs bundle)
  /\ forall t, exists dropped kept,
       filter (at_time t) (filter is_native all_logs) = dropped ++ kept
       /\ filter (at_time t) (logs bundle)
          = filter (at_time t) (filter is_event all_logs) ++ kept.
Proof.
  intros bundle. subst bundle. split.
  - unfold sort_and_truncate; simpl. apply sort_sorted.
  - intros t. unfold sort_and_truncate; simpl.
    set (natives := filter is_native (sort_by_timestamp all_logs)).
    destruct (last_n_tail 50 natives) as [d Hd].
    exists (filter (at_time t) d), (filter (at_time t) (last_n 50 natives)).
    split.
    + rewrite <- filter_app, <- Hd. unfold natives.
      rewrite (filter_comm (at_time t) is_native (sort_by_timestamp all_logs)).
      rewrite sort_stable. apply filter_comm.
    + rewrite sort_stable, filter_app. f_equal.
      rewrite (filter_comm (at_time t) is_event (sort_by_timestamp all_logs)).
      rewrite sort_stable. apply filter_comm.
Qed.

End Bundle.

(** ** The pagination loops and the requests they make *)

Section StoreFacts.

Import LogAnalysis.
Local Open Scope Z_scope.

Variable St : Type.
Variable get_log_events : GetLogEvents -> St -> result Page * St.
Variable describe_log_streams : string -> St -> result (list string) * St.

Abbreviation World := (World St).
Abbreviation call := (call_get_log_events St get_log_events).
Abbreviation native_loop := (around_failure_loop St get_log_events).
Abbreviation event_loop := (all_events_loop St get_log_events).

Lemma call_trace (req : GetLogEvents) (w w' : World) (r : result Page) :
  call req w = (r, w') ->
  calls w' = calls w ++ [{| request := req; response := r |}].
Proof.
  unfold call_get_log_events.
  destruct (get_log_events req (store w)) as [r0 s'].
  intros H. injection H as <- <-. reflexivity.
Qed.

Lemma native_loop_step (fuel : nat) (g s : string) (a b : Z)
    (events : list LogEvent) (tok : option string) (w : World) :
  native_loop (S fuel) g s a b events tok w
  = match call (request_of g s a b tok) w with
    | (Raise e, w') => (Raised e, w')
    | (Ok page, w') =>
        let events' := events ++ map (tag g "native") (page_events page) in
        if negb (goes_on page) || (100 <? List.length events')%nat
        then (Done events', w')
        else native_loop fuel g s a b events' (nextForwardToken page) w'
    end.
Proof.
  simpl. unfold request_of, goes_on.
  destruct (call_get_log_events _ _ _ _) as [[page|e] w']; [|reflexivity].
  destruct (no_token (nextForwardToken page)); simpl; [reflexivity|].
  destruct (page_events page); reflexivity.
Qed.

Lemma event_loop_step (fuel : nat) (g s : string) (a b : Z)
    (events : list LogEvent) (tok : option string) (w : World) :
  event_loop (S fuel) g s a b events tok w
  = match call (request_of g s a b tok) w with
    | (Raise e, w') => (Raised e, w')
    | (Ok page, w') =>
        let events' := events ++ map (tag g "event") (page_events page) in
        if negb (goes_on page)
        then (Done events', w')
        else event_loop fuel g s a b events' (nextForwardToken page) w'
    end.
Proof.
  simpl. unfold request_of, goes_on.
  destruct (call_get_log_events _ _ _ _) as [[page|e] w']; [|reflexivity].
  destruct (no_token (nextForwardToken page)); simpl; [reflexivity|].
  destruct (page_events page); reflexivity.
Qed.

Lemma goes_on_nonempty (p : Page) :
  goes_on p = true -> (1 <= List.length (page_events p))%nat.
Proof.
  unfold goes_on. destruct (page_events p); simpl; [|lia].
  rewrite andb_false_r. discriminate.
Qed.

Lemma native_loop_requests (fuel : nat) (g s : string) (a b : Z) :
  forall events tok w r w',
    native_loop fuel g s a b events tok w = (r, w') ->
    exists new, calls w' = calls w ++ new /\ Forall (aimed_at g s a b) new.
Proof.
  induction fuel as [|fuel IH]; intros events tok w r w' H.
  - injection H as <- <-. exists []. now rewrite app_nil_r.
  - rewrite native_loop_step in H.
    destruct (call _ w) as [[page|e] w1] eqn:E;
      apply call_trace in E.
    + cbv zeta in H.
      destruct (negb (goes_on page) || _).
      * injection H as <- <-. eexists; split; [exact E|].
        repeat constructor.
      * apply IH in H. destruct H as [new [Hc Hf]].
        exists ({| request := request_of g s a b tok;
                   response := Ok page |} :: new).
        split; [rewrite Hc, E, <- app_assoc; reflexivity|].
        constructor; [repeat constructor | exact Hf].
    + injection H as <- <-. eexists; split; [exact E|].
      repeat constructor.
Qed.

Lemma event_loop_requests (fuel : nat) (g s : string) (a b : Z) :
  forall events tok w r w',
    event_loop fuel g s a b events tok w = (r, w') ->
    exists new, calls w' = calls w ++ new /\ Forall (aimed_at g s a b) new.
Proof.
  induction fuel as [|fuel IH]; intros events tok w r w' H.
  - injection H as <- <-. exists []. now rewrite app_nil_r.
  - rewrite event_loop_step in H.
    destruct (call _ w) as [[page|e] w1] eqn:E;
      apply call_trace in E.
    + cbv zeta in H.
      destruct (negb (goes_on page)).
      * injection H as <- <-. eexists; split; [exact E|].
        repeat constructor.
      * apply IH in H. destruct H as [new [Hc Hf]].
        exists ({| request := request_of g s a b tok;
                   response := Ok page |} :: new).
        split; [rewrite Hc, E, <- app_assoc; reflexivity|].
        constructor; [repeat constructor | exact Hf].
    + injection H as <- <-. eexists; split; [exact E|].
      repeat constructor.
Qed.

(** The native loop enters every iteration with at most 100 events, so what
    it returns is at most 100 events followed by the whole of the last
    page. *)
Lemma native_loop_result (fuel : nat) (g s : string) (a b : Z) :
  forall events tok w evs w',
    (List.length events <= 100)%nat ->
    native_loop fuel g s a b events tok w = (Done evs, w') ->
    exists earlier before req page,
      calls w' = before ++ [{| request := req; response := Ok page |}]
      /\ evs = earlier ++ map (tag g "native") (page_events page)
      /\ (List.length earlier <= 100)%nat.
Proof.
  induction fuel as [|fuel IH]; intros events tok w evs w' Hlen H.
  - discriminate.
  - rewrite native_loop_step in H.
    destruct (call _ w) as [[page|e] w1] eqn:E;
      [apply call_trace in E | discriminate].
    cbv zeta in H.
    destruct (negb (goes_on page) || _) eqn:Stop.
    + injection H as <- <-.
      exists events, (calls w), (request_of g s a b tok), page. auto.
    + apply orb_false_iff in Stop. destruct Stop as [_ Hcap].
      apply Nat.ltb_ge in Hcap.
      eapply IH; [exact Hcap | exact H].
Qed.

(** It makes at most 101 requests: every page but the last one adds an
    event. *)
Lemma native_loop_count (fuel : nat) (g s : string) (a b : Z) :
  forall events tok w r w',
    (List.length events <= 100)%nat ->
    native_loop fuel g s a b events tok w = (r, w') ->
    exists new, calls w' = calls w ++ new
                /\ (List.length new + List.length events <= 101)%nat.
Proof.
  induction fuel as [|fuel IH]; intros events tok w r w' Hlen H.
  - injection H as <- <-. exists []. rewrite app_nil_r. simpl. split; [auto|lia].
  - rewrite native_loop_step in H.
    destruct (call _ w) as [[page|e] w1] eqn:E;
      apply call_trace in E.
    + cbv zeta in H.
      destruct (negb (goes_on page) || _) eqn:Stop.
      * injection H as <- <-. eexists; split; [exact E|]. simpl. lia.
      * apply orb_false_iff in Stop. destruct Stop as [Hgo Hcap].
        apply negb_false_iff, goes_on_nonempty in Hgo.
        apply Nat.ltb_ge in Hcap.
        apply IH in H; [|exact Hcap]. destruct H as [new [Hc Hn]].
        exists ({| request := request_of g s a b tok;
                   response := Ok page |} :: new).
        split; [rewrite Hc, E, <- app_assoc; reflexivity|].
        rewrite length_app, length_map in Hn. simpl. lia.
    + injection H as <- <-. eexists; split; [exact E|]. simpl. lia.
Qed.

(** So 101 iterations are always enough for it to stop. *)
Lemma native_loop_stops (fuel : nat) (g s : string) (a b : Z) :
  forall events tok w,
    (List.length events <= 100)%nat ->
    (101 <= fuel + List.length events)%nat ->
    fst (native_loop fuel g s a b events tok w) <> OutOfFuel.
Proof.
  induction fuel as [|fuel IH]; intros events tok w Hlen Hfuel.
  - simpl in Hfuel. lia.
  - rewrite native_loop_step.
    destruct (call _ w) as [[page|e] w1]; [|discriminate].
    cbv zeta.
    destruct (negb (goes_on page) || _) eqn:Stop; [discriminate|].
    apply orb_false_iff in Stop. destruct Stop as [Hgo Hcap].
    apply negb_false_iff, goes_on_nonempty in Hgo.
    apply Nat.ltb_ge in Hcap.
    apply IH; [exact Hcap|].
    rewrite length_app, length_map. lia.
Qed.

Lemma event_loop_out_of_fuel (fuel : nat) (g s : string) (a b : Z) :
  forall events tok w w',
    event_loop fuel g s a b events tok w = (OutOfFuel, w') ->
    exists new, calls w' = calls w ++ new
                /\ List.length new = fuel /\ Forall kept_going new.
Proof.
  induction fuel as [|fuel IH]; intros events tok w w' H.
  - injection H as <-. exists []. now rewrite app_nil_r.
  - rewrite event_loop_step in H.
    destruct (call _ w) as [[page|e] w1] eqn:E;
      [apply call_trace in E | discriminate].
    cbv zeta in H.
    destruct (goes_on page) eqn:Go; simpl in H; [|discriminate].
    apply IH in H. destruct H as [new [Hc [Hn Hk]]].
    exists ({| request := request_of g s a b tok;
               response := Ok page |} :: new).
    split; [rewrite Hc, E, <- app_assoc; reflexivity|].
    split; [simpl; now rewrite Hn|].
    constructor; [exact Go | exact Hk].
Qed.

(** A loop that has stopped gives the same result under any larger bound. *)
Lemma native_loop_more_fuel (fuel : nat) (g s : string) (a b : Z) :
  forall events tok w r w',
    native_loop fuel g s a b events tok w = (r, w') ->
    r <> OutOfFuel ->
    forall extra, native_loop (fuel + extra) g s a b events tok w = (r, w').
Proof.
  induction fuel as [|fuel IH]; intros events tok w r w' H Hr extra.
  - injection H as <- <-. now contradiction Hr.
  - change (S fuel + extra)%nat with (S (fuel + extra)).
    rewrite native_loop_step in *.
    destruct (call _ w) as [[page|e] w1]; [|exact H].
    cbv zeta in *.
    destruct (negb (goes_on page) || _); [exact H|].
    now apply IH.
Qed.

Abbreviation fetch_group := (fetch_group St get_log_events describe_log_streams).
Abbreviation fetch_groups :=
  (fetch_groups St get_log_events describe_log_streams).

Lemma fetch_group_requests (fuel : nat) (g : string) (a b : Z)
    (w w' : World) (r : outcome (list LogEvent)) :
  fetch_group fuel g a b w = (r, w') ->
  exists new, calls w' = calls w ++ new /\ Forall (in_window a b) new.
Proof.
  unfold LogAnalysis.fetch_group.
  destruct (describe_log_streams g (store w)) as [[[|stream rest]|e] s'].
  - intros H. injection H as <- <-. exists []. now rewrite app_nil_r.
  - destruct (is_event_log g) eqn:K; intros H.
    + apply event_loop_requests in H. destruct H as [new [Hc Hf]].
      exists new. split; [exact Hc|].
      eapply Forall_impl; [|exact Hf].
      intros c [Hg [_ [Ha Hb]]]. unfold in_window. now rewrite Hg, K.
    + apply native_loop_requests in H. destruct H as [new [Hc Hf]].
      exists new. split; [exact Hc|].
      eapply Forall_impl; [|exact Hf].
      intros c [Hg [_ [Ha Hb]]]. unfold in_window. now rewrite Hg, K.
  - intros H. injection H as <- <-. exists []. now rewrite app_nil_r.
Qed.

Lemma fetch_groups_requests (fuel : nat) (a b : Z) (log_groups : list string) :
  forall all_logs w r w',
    fetch_groups fuel log_groups a b all_logs w = (r, w') ->
    exists new, calls w' = calls w ++ new /\ Forall (in_window a b) new.
Proof.
  induction log_groups as [|g rest IH]; intros all_logs w r w' H; simpl in H.
  - injection H as <- <-. exists []. now rewrite app_nil_r.
  - destruct (fetch_group fuel g a b w) as [o w1] eqn:E.
    apply fetch_group_requests in E. destruct E as [new1 [Hc1 Hf1]].
    assert (Hrest : forall logs',
               fetch_groups fuel rest a b logs' w1 = (r, w') ->
               exists new, calls w' = calls w ++ new
                           /\ Forall (in_window a b) new).
    { intros logs' H'. apply IH in H'. destruct H' as [new2 [Hc2 Hf2]].
      exists (new1 ++ new2). split.
      - now rewrite Hc2, Hc1, app_assoc.
      - apply Forall_app. now split. }
    destruct o as [events|e|].
    + eapply Hrest, H.
    + eapply Hrest, H.
    + injection H as <- <-. now exists new1.
Qed.

End StoreFacts.


(** ** Claims on the log fetch *)

Section FetchClaims.

Import LogAnalysis.
Local Open Scope Z_scope.

(** C3.  With both ends of the execution window present, every
    [get_log_events] request that [_fetch_logs_in_timeframe] sends for a
    native-kind log group (one whose name has no "-event-log-group") asks
    for the range from [end_time] minus 30 minutes to [end_time]; the start
    of the execution window does not enter a native-kind request.  This
    holds for any store, any list of groups and any order of the two
    instants, whether or not the fetch comes to an end. *)
Theorem native_requests_cover_last_30_minutes
    (St : Type)
    (get_log_events : GetLogEvents -> St -> result Page * St)
    (describe_log_streams : string -> St -> result (list string) * St)
    (datetime : Type) (epoch_ms : datetime -> Z)
    (utcnow : datetime) (minus_one_hour : datetime -> datetime)
    (fuel : nat) (log_groups : list string)
    (start_time end_time : datetime) (s : St) :
  let run :=
    _fetch_logs_in_timeframe St get_log_events describe_log_streams
      datetime epoch_ms utcnow minus_one_hour
      fuel log_groups (Some start_time) (Some end_time) (fresh s) in
  Forall (fun c =>
            is_event_log (logGroupName (request c)) = false ->
            startTime (request c) = epoch_ms end_time - 30 * 60 * 1000
            /\ endTime (request c) = epoch_ms end_time)
         (calls (snd run)).
Proof.
  intros run. subst run. unfold _fetch_logs_in_timeframe, window.
  destruct (LogAnalysis.fetch_groups _ _ _ fuel log_groups
              (epoch_ms start_time) (epoch_ms end_time) [] (fresh s))
    as [o w'] eqn:E.
  apply fetch_groups_requests in E. destruct E as [new [Hc Hf]].
  simpl in Hc.
  assert (Hcalls : Forall (in_window (epoch_ms start_time) (epoch_ms end_time))
                          (calls w')) by now rewrite Hc.
  assert (Hgoal : Forall (fun c =>
            is_event_log (logGroupName (request c)) = false ->
            startTime (request c) = epoch_ms end_time - 30 * 60 * 1000
            /\ endTime (request c) = epoch_ms end_time) (calls w')).
  { eapply Forall_impl; [|exact Hcalls].
    intros c Hw Hk. unfold in_window in Hw. now rewrite Hk in Hw. }
  destruct o; exact Hgoal.
Qed.

(** In the one-hour run the native-kind group is asked for the last 30
    minutes and the event-kind group for the whole hour. *)
Example hour_run_requests :
  map request (calls (snd hour_run))
  = [ {| logGroupName := "/aws/codebuild/app"; logStreamName := "stream-1";
         startTime := 1800000; endTime := 3600000; nextToken := None |};
      {| logGroupName := "app-event-log-group"; logStreamName := "stream-1";
         startTime := 0; endTime := 3600000; nextToken := None |} ].
Proof. reflexivity. Qed.

(** Its two entries carry the same timestamp; the native one arrived first
    and the bundle lists it second. *)
Example hour_run_bundle :
  match fst hour_run with
  | Done bundle =>
      map (fun e => (type e, timestamp e)) (logs bundle)
      = [("event"%string, 3600000); ("native"%string, 3600000)]
  | _ => False
  end.
Proof. reflexivity. Qed.

(** What [_fetch_logs_in_timeframe] returns is the assembly of the entries
    it fetched. *)
Lemma fetch_bundle_is_assembled
    (St : Type)
    (get_log_events : GetLogEvents -> St -> result Page * St)
    (describe_log_streams : string -> St -> result (list string) * St)
    (datetime : Type) (epoch_ms : datetime -> Z)
    (utcnow : datetime) (minus_one_hour : datetime -> datetime)
    (fuel : nat) (log_groups : list string)
    (start_time end_time : option datetime) (w w' : World St)
    (bundle : LogBundle) :
  _fetch_logs_in_timeframe St get_log_events describe_log_streams
    datetime epoch_ms utcnow minus_one_hour
    fuel log_groups start_time end_time w = (Done bundle, w') ->
  exists all_logs, bundle = sort_and_truncate all_logs.
Proof.
  unfold _fetch_logs_in_timeframe.
  destruct (window _ _ _ start_time end_time) as [t0 t1].
  destruct (LogAnalysis.fetch_groups _ _ _ _ _ _ _ _ _) as [[all_logs|e|] w1];
    intros [= <- <-]. now exists all_logs.
Qed.

(** C5, counterexample.  Against a store that serves one event per page,
    the native fetch returns 101 events. *)
Lemma native_fetch_returns_101_events :
  exists evs w',
    _get_events_around_failure nat chatty 101
      "/aws/codebuild/app" "stream-1" 0 1800000 (fresh 0%nat) = (Done evs, w')
    /\ List.length evs = 101%nat.
Proof.
  eexists. eexists. split; [vm_compute; reflexivity | reflexivity].
Qed.

(** C5, as the code has it.  Pagination of a native-kind group stops after
    the first page that brings the number of collected events above 100:
    whenever the fetch returns, its result is at most 100 events collected
    from earlier pages followed by every event of the last page it was
    served, and it has sent at most 101 requests. *)
Theorem native_fetch_stops_after_page_past_100
    (St : Type)
    (get_log_events : GetLogEvents -> St -> result Page * St)
    (fuel : nat) (log_group stream_name : string) (start_ms end_ms : Z)
    (w w' : World St) (evs : list LogEvent) :
  _get_events_around_failure St get_log_events fuel
    log_group stream_name start_ms end_ms w = (Done evs, w') ->
  (exists earlier before req page,
      calls w' = before ++ [{| request := req; response := Ok page |}]
      /\ evs = earlier ++ map (tag log_group "native") (page_events page)
      /\ (List.length earlier <= 100)%nat)
  /\ (exists new, calls w' = calls w ++ new
                  /\ (List.length new <= 101)%nat).
Proof.
  unfold _get_events_around_failure. intros H. split.
  - eapply native_loop_result; [|exact H]. simpl. lia.
  - apply native_loop_count in H; [|simpl; lia].
    destruct H as [new [Hc Hn]]. exists new. split; [exact Hc|].
    simpl in Hn. lia.
Qed.

(** The theorem at the store that serves one event per page. *)
Lemma native_fetch_stops_after_page_past_100_witness :
  (exists earlier before req page,
      calls (snd chatty_native_run)
      = before ++ [{| request := req; response := Ok page |}]
      /\ events_of (fst chatty_native_run)
         = earlier ++ map (tag "/aws/codebuild/app" "native") (page_events page)
      /\ (List.length earlier <= 100)%nat)
  /\ (exists new, calls (snd chatty_native_run) = calls (fresh 0%nat) ++ new
                  /\ (List.length new <= 101)%nat).
Proof.
  apply (native_fetch_stops_after_page_past_100 nat chatty 101
           "/aws/codebuild/app" "stream-1" 0 1800000 (fresh 0%nat)).
  vm_compute. reflexivity.
Defined.

(** One page of 150 events is returned whole. *)
Example native_fetch_returns_whole_page :
  List.length (events_of (fst (_get_events_around_failure unit burst 101
     "/aws/codebuild/app" "stream-1" 0 1800000 (fresh tt)))) = 150%nat.
Proof. vm_compute. reflexivity. Qed.

(** Against the store that never ends a stream, the event loop is still
    running after any number of iterations. *)
Lemma event_loop_chatty (fuel : nat) :
  forall events tok w,
    fst (all_events_loop nat chatty fuel
           "app-event-log-group" "stream-1" 0 1800000 events tok w)
    = OutOfFuel.
Proof.
  induction fuel as [|fuel IH]; intros events tok w; [reflexivity|].
  rewrite event_loop_step. unfold call_get_log_events, chatty at 1.
  cbv zeta. unfold goes_on. cbn [nextForwardToken page_events no_token].
  cbn [append PyStr.is_empty negb andb orb].
  apply IH.
Qed.

(** C9, counterexample.  The loop of [_get_all_events_from_stream] has no
    stop condition that a store serving fresh tokens and non-empty pages for
    ever would meet: no bound on its iterations lets it return. *)
Lemma event_fetch_never_returns_from_chatty_store :
  ~ exists fuel,
      fst (_get_all_events_from_stream nat chatty fuel
             "app-event-log-group" "stream-1" 0 1800000 (fresh 0%nat))
      <> OutOfFuel.
Proof.
  intros [fuel H]. apply H. apply event_loop_chatty.
Qed.

(** C9, as the code has it.  The loop of [_get_events_around_failure]
    stops within 101 iterations against every store, also one that keeps
    serving fresh tokens and non-empty pages, and a larger bound does not
    change its result.  The loop of [_get_all_events_from_stream] has no
    event-count cap: it can still be running after [fuel] iterations only
    if the store has answered each of its [fuel] requests with a page that
    carries both a token and events, so it stops at the first page without
    a token or without events, or at the first exception. *)
Theorem pagination_stops_native_always_event_on_last_page
    (St : Type)
    (get_log_events : GetLogEvents -> St -> result Page * St)
    (log_group stream_name : string) (start_ms end_ms : Z) (w : World St) :
  (forall fuel, (101 <= fuel)%nat ->
     _get_events_around_failure St get_log_events fuel
       log_group stream_name start_ms end_ms w
     = _get_events_around_failure St get_log_events 101
         log_group stream_name start_ms end_ms w
     /\ fst (_get_events_around_failure St get_log_events fuel
               log_group stream_name start_ms end_ms w) <> OutOfFuel)
  /\ (forall fuel w',
        _get_all_events_from_stream St get_log_events fuel
          log_group stream_name start_ms end_ms w = (OutOfFuel, w') ->
        exists new, calls w' = calls w ++ new
                    /\ List.length new = fuel /\ Forall kept_going new).
Proof.
  split.
  - intros fuel Hfuel. unfold _get_events_around_failure.
    assert (H101 : fst (around_failure_loop St get_log_events 101
                          log_group stream_name start_ms end_ms [] None w)
                   <> OutOfFuel)
      by (apply native_loop_stops; simpl; lia).
    destruct (around_failure_loop St get_log_events 101
                log_group stream_name start_ms end_ms [] None w)
      as [r w1] eqn:E.
    replace fuel with (101 + (fuel - 101))%nat by lia.
    rewrite (native_loop_more_fuel St get_log_events _ _ _ _ _ _ _ _ _ _ E H101).
    split; [reflexivity | exact H101].
  - intros fuel w' H. unfold _get_all_events_from_stream in H.
    now apply event_loop_out_of_fuel in H.
Qed.

End FetchClaims.

(** ** Log-group resolution *)

Section Resolution.

Import LogAnalysis.

Variable get_parameter : string -> result string.
Variable repr : value -> string.

Abbreviation read_params := (read_params get_parameter).
Abbreviation resolve := (_get_log_groups_from_ssm get_parameter repr).

Lemma is_str_true (x : string) (v : value) :
  is_str x v = true <-> v = VStr x.
Proof.
  destruct v; simpl; try (split; [discriminate | intros H; discriminate]).
  rewrite String.eqb_eq. split; [now intros -> | now intros [= ->]].
Qed.

Lemma is_empty_true (s : string) : PyStr.is_empty s = true <-> s = "".
Proof. destruct s; simpl; split; congruence. Qed.

Lemma is_empty_false (s : string) : PyStr.is_empty s = false <-> s <> "".
Proof. destruct s; simpl; split; congruence. Qed.

(** Each path adds at most one group. *)
Lemma read_params_length (paths : list string) :
  forall acc l,
    read_params paths acc = Ok l ->
    (List.length acc <= List.length l
     <= List.length acc + List.length paths)%nat.
Proof.
  induction paths as [|p rest IH]; intros acc l H; simpl in H.
  - injection H as <-. simpl. lia.
  - destruct (get_parameter p) as [v|e].
    + apply IH in H. destruct (PyStr.is_empty (PyStr.strip v));
        [|rewrite length_app in H]; simpl in *; lia.
    + destruct e; discriminate.
Qed.

(** The function after its five field reads. *)
Lemma resolve_unfold (pipeline_name pipeline_event : value)
    (stage_name action_name provider : value) :
  failure_of pipeline_event stage_name action_name provider ->
  truthy stage_name = true -> truthy action_name = true ->
  truthy provider = true ->
  resolve pipeline_name pipeline_event
  = (log_groups <-
       (if is_str "CodeBuild" provider
        then read_params
               [(param_prefix repr pipeline_name stage_name action_name
                 ++ "codebuild-event-log-group")%string;
                (param_prefix repr pipeline_name stage_name action_name
                 ++ "codebuild-native-log-group")%string] []
        else lowered <- lower_of provider ;;
             read_params
               [(param_prefix repr pipeline_name stage_name action_name
                 ++ lowered ++ "-log-group")%string] []) ;;
     match log_groups with
     | [] => Raise (ValueError ("No log groups found for " ++ fmt repr provider
                                ++ " stage " ++ fmt repr stage_name))
     | _ => Ok log_groups
     end).
Proof.
  intros (detail & type_ & Hd & Hs & Ha & Ht & Hp) Ts Ta Tp.
  unfold _get_log_groups_from_ssm.
  rewrite Hd; simpl. rewrite Hs; simpl. rewrite Ha; simpl.
  rewrite Ht; simpl. rewrite Hp; simpl.
  rewrite Ts, Ta, Tp. reflexivity.
Qed.

(** C6, as the code has it.  For a failure event that carries stage,
    action and provider: with the build provider (CodeBuild) and both
    parameters present with values that are not blank, resolution yields
    exactly the two trimmed values, event group first; with any other
    provider (a string) whose parameter is present and not blank it yields
    exactly that one trimmed value; and whenever resolution succeeds the
    result is not empty, has at most two entries, and has exactly one entry
    for a provider other than CodeBuild (an empty result is an error). *)
Theorem resolution_yields_one_group_per_non_blank_parameter
    (pipeline_name pipeline_event stage_name action_name provider : value) :
  failure_of pipeline_event stage_name action_name provider ->
  truthy stage_name = true -> truthy action_name = true ->
  truthy provider = true ->
  let prefix := param_prefix repr pipeline_name stage_name action_name in
  (forall v1 v2,
      provider = VStr "CodeBuild" ->
      get_parameter (prefix ++ "codebuild-event-log-group") = Ok v1 ->
      get_parameter (prefix ++ "codebuild-native-log-group") = Ok v2 ->
      PyStr.strip v1 <> "" -> PyStr.strip v2 <> "" ->
      resolve pipeline_name pipeline_event
      = Ok [PyStr.strip v1; PyStr.strip v2])
  /\ (forall p v,
        provider = VStr p -> p <> "CodeBuild" ->
        get_parameter (prefix ++ PyStr.lower p ++ "-log-group") = Ok v ->
        PyStr.strip v <> "" ->
        resolve pipeline_name pipeline_event = Ok [PyStr.strip v])
  /\ (forall l,
        resolve pipeline_name pipeline_event = Ok l ->
        l <> [] /\ (List.length l <= 2)%nat
        /\ (provider <> VStr "CodeBuild" -> List.length l = 1%nat)).
Proof.
  intros Hf Ts Ta Tp prefix.
  rewrite (resolve_unfold pipeline_name pipeline_event _ _ _ Hf Ts Ta Tp).
  fold prefix. split; [|split].
  - intros v1 v2 -> H1 H2 N1 N2.
    change (is_str "CodeBuild" (VStr "CodeBuild")) with true. cbv iota.
    cbn [LogAnalysis.read_params].
    rewrite H1, H2.
    apply is_empty_false in N1, N2. now rewrite N1, N2.
  - intros p v -> Hp Hv Nv.
    assert (K : is_str "CodeBuild" (VStr p) = false).
    { destruct (is_str "CodeBuild" (VStr p)) eqn:E; [|reflexivity].
      apply is_str_true in E. injection E as ->. now contradiction Hp. }
    rewrite K. cbn [lower_of Py.bind LogAnalysis.read_params]. rewrite Hv.
    apply is_empty_false in Nv. now rewrite Nv.
  - intros l H.
    destruct (is_str "CodeBuild" provider) eqn:K.
    + destruct (read_params _ []) as [groups|e] eqn:R; [|discriminate].
      cbn [Py.bind] in H. apply read_params_length in R.
      cbn [List.length] in R.
      destruct groups; [discriminate|]. injection H as <-.
      split; [discriminate|]. split; [lia|].
      intros Hn. apply is_str_true in K. now contradiction Hn.
    + destruct (lower_of provider) as [lowered|e]; [|discriminate].
      cbn [Py.bind] in H.
      destruct (read_params _ []) as [groups|e] eqn:R; [|discriminate].
      cbn [Py.bind] in H. apply read_params_length in R.
      cbn [List.length] in R.
      destruct groups; [discriminate|]. injection H as <-.
      split; [discriminate|]. cbn [List.length] in *.
      split; [lia|]. intros _. lia.
Qed.

End Resolution.

(** The theorem at the build failure with both parameters filled in. *)
Lemma resolution_yields_one_group_per_non_blank_parameter_witness :
  LogAnalysis._get_log_groups_from_ssm ssm_both no_repr (VStr "app")
    build_failure
  = Ok ["/codepipeline/app/Build/Compile/CodeBuild/proj";
        "/aws/codebuild/proj"].
Proof.
  apply (proj1 (resolution_yields_one_group_per_non_blank_parameter
                  ssm_both no_repr (VStr "app") build_failure
                  (VStr "Build") (VStr "Compile") (VStr "CodeBuild")
                  (ex_intro _ _ (ex_intro _ _
                     (conj eq_refl (conj eq_refl (conj eq_refl
                        (conj eq_refl eq_refl))))))
                  eq_refl eq_refl eq_refl)
               "/codepipeline/app/Build/Compile/CodeBuild/proj "
               "/aws/codebuild/proj");
    first [reflexivity | discriminate].
Defined.

(** C6, counterexample.  For the build provider with both parameters
    present, a blank native parameter leaves one log group, not two. *)
Lemma build_resolution_with_blank_parameter_yields_one :
  (exists v1, ssm_blank_native event_param = Ok v1)
  /\ (exists v2, ssm_blank_native native_param = Ok v2)
  /\ LogAnalysis._get_log_groups_from_ssm ssm_blank_native no_repr
       (VStr "app") build_failure
     = Ok ["/codepipeline/app/Build/Compile/CodeBuild/proj"].
Proof.
  split; [eexists; reflexivity|]. split; [eexists; reflexivity|]. reflexivity.
Qed.

(** ** The suspect-file identifier *)

Section Suspect.

Import SolutionProvider.

Variable json_loads : string -> result value.
Variable _invoke_bedrock_simple : value -> value -> value.

Abbreviation identify_file :=
  (_identify_problematic_file json_loads _invoke_bedrock_simple).
Abbreviation file_list := (available_files json_loads).

Lemma existsb_is_str (x : string) (l : list value) :
  existsb (is_str x) l = true <-> In (VStr x) l.
Proof.
  rewrite existsb_exists. split.
  - intros [v [Hin Hv]]. apply is_str_true in Hv. now subst.
  - intros Hin. exists (VStr x). split; [exact Hin|]. now apply is_str_true.
Qed.

(** The body once the file list is known to be a list. *)
Lemma identify_with_list (error_context repo_structure : value)
    (files : list value) :
  file_list repo_structure = Ok (VList files) ->
  identify json_loads _invoke_bedrock_simple error_context repo_structure
  = (error_data <- unwrap json_loads error_context ;;
     filename <- clean (_invoke_bedrock_simple error_data (VList files)) ;;
     if String.eqb filename "NONE" then Ok None
     else if existsb (is_str filename) files then Ok (Some filename)
          else Ok None).
Proof.
  unfold available_files, identify. intros H.
  destruct (unwrap json_loads error_context) as [error_data|e];
    [|reflexivity].
  destruct (unwrap json_loads repo_structure) as [repo_data|e];
    [|discriminate].
  cbn [Py.bind] in *. rewrite H. cbn [Py.bind].
  destruct (clean _) as [filename|e]; [|reflexivity].
  cbn [Py.bind]. destruct (String.eqb filename "NONE"); [reflexivity|].
  cbn [str_in Py.bind]. now destruct (existsb (is_str filename) files).
Qed.

(** C2.  For every error context, every repository structure and every
    answer of the model, [_identify_problematic_file] returns and raises
    nothing; when the supplied [file_paths] is a list, what it returns is
    [None] or a filename that is an element of that list (and is not
    "NONE"); and an answer that, once stripped, is "NONE" or is not in the
    list gives [None]. *)
Theorem suspect_file_is_listed_or_None
    (error_context repo_structure : value) :
  (exists answer, identify_file error_context repo_structure = Ok answer)
  /\ (forall files,
        file_list repo_structure = Ok (VList files) ->
        identify_file error_context repo_structure = Ok None
        \/ exists filename,
             identify_file error_context repo_structure = Ok (Some filename)
             /\ In (VStr filename) files /\ filename <> "NONE")
  /\ (forall files s,
        file_list repo_structure = Ok (VList files) ->
        (forall error_data available,
            _invoke_bedrock_simple error_data available = VStr s) ->
        cleaned s = "NONE" \/ ~ In (VStr (cleaned s)) files ->
        identify_file error_context repo_structure = Ok None).
Proof.
  split; [|split].
  - eexists. reflexivity.
  - intros files Hfiles. unfold _identify_problematic_file.
    rewrite (identify_with_list _ _ _ Hfiles).
    destruct (unwrap json_loads error_context) as [error_data|e];
      [|now left].
    cbn [Py.bind].
    destruct (clean _) as [filename|e]; [|now left].
    cbn [Py.bind]. destruct (String.eqb filename "NONE") eqn:N; [now left|].
    destruct (existsb (is_str filename) files) eqn:L; [|now left].
    right. exists filename. split; [reflexivity|]. split.
    + now apply existsb_is_str.
    + now apply String.eqb_neq.
  - intros files s Hfiles Hs Hbad. unfold _identify_problematic_file.
    rewrite (identify_with_list _ _ _ Hfiles).
    destruct (unwrap json_loads error_context) as [error_data|e];
      [|reflexivity].
    cbn [Py.bind]. rewrite Hs. cbn [clean Py.bind]. fold (cleaned s).
    destruct (String.eqb (cleaned s) "NONE") eqn:N; [reflexivity|].
    destruct Hbad as [Hnone|Hout].
    + apply String.eqb_neq in N. now contradiction N.
    + destruct (existsb (is_str (cleaned s)) files) eqn:L; [|reflexivity].
      apply existsb_is_str in L. now contradiction Hout.
Qed.

End Suspect.

Example identify_listed_file :
  SolutionProvider._identify_problematic_file decode_repo
    (answers quoted_template) logs_error wrapped_repo
  = Ok (Some "template.yaml").
Proof. reflexivity. Qed.

Example identify_hallucinated_file :
  SolutionProvider._identify_problematic_file decode_repo
    (answers "src/main.py") logs_error wrapped_repo
  = Ok None.
Proof. reflexivity. Qed.

Example identify_undecodable_repo :
  SolutionProvider._identify_problematic_file decode_repo
    (answers "template.yaml") logs_error
    (VDict [("body", VStr "not json")])
  = Ok None.
Proof. reflexivity. Qed.

(** The theorem at the wrapped repository, for the model's answer "NONE". *)
Lemma suspect_file_is_listed_or_None_witness :
  SolutionProvider._identify_problematic_file decode_repo
    (answers "NONE") logs_error wrapped_repo
  = Ok None.
Proof.
  apply (proj2 (proj2 (suspect_file_is_listed_or_None decode_repo
                         (answers "NONE") logs_error wrapped_repo))
           repo_files "NONE").
  - reflexivity.
  - reflexivity.
  - left. reflexivity.
Defined.

(** ** File classification and repository URL *)

Section Repository.

Import RepoStructure.

(** C7, counterexample.  [requirements.txt] ends in none of the config
    extensions and contains none of the config names: it is not a config
    file, and the analysis of the scenario's tree does not list it as
    one. *)
Lemma requirements_txt_is_not_a_config_file :
  _is_config_file "requirements.txt" = false
  /\ ~ In "requirements.txt" (config_files (analysis scenario_tree)).
Proof.
  split; [reflexivity|]. vm_compute. intros [H|[]]. discriminate.
Qed.

(** C7, as the code has it.  In the scenario's tree [requirements.txt] is
    a build file only, [Dockerfile] is a config file and a deployment file
    (and neither source nor build), and [src/app.py] is a source file
    only. *)
Theorem scenario_tree_classification :
  classify "requirements.txt" = (false, false, true, false)
  /\ classify "Dockerfile" = (true, false, false, true)
  /\ classify "src/app.py" = (false, true, false, false)
  /\ analysis scenario_tree
     = {| config_files := ["Dockerfile"];
          source_files := ["src/app.py"];
          build_files_found := ["requirements.txt"];
          deployment_files := ["Dockerfile"] |}.
Proof. repeat split; reflexivity. Qed.

(** The two copies of [_parse_github_url] are the same function. *)
Lemma parse_github_url_copies_agree (repo_url : string) :
  SolutionProvider._parse_github_url repo_url = _parse_github_url repo_url.
Proof. reflexivity. Qed.

(** With fewer than two path segments the parse fails, and both callers
    report an invalid URL. *)
Lemma parse_path_one_segment (path : string) :
  (List.length (PyStr.split "/" (PyStr.strip_char "/" path)) < 2)%nat ->
  parse_path path = (None, None) /\ usable (parse_path path) = false.
Proof.
  unfold parse_path.
  destruct (PyStr.split "/" (PyStr.strip_char "/" path)) as [|p0 [|p1 r]];
    simpl; intros H; try lia; now split.
Qed.

(** With two or more, the owner is the first segment and the name is the
    second one with every occurrence of ".git" taken out. *)
Lemma parse_path_two_segments (path owner name : string) (r : list string) :
  PyStr.split "/" (PyStr.strip_char "/" path) = owner :: name :: r ->
  parse_path path = (Some owner, Some (PyStr.replace ".git" "" name)).
Proof. unfold parse_path. now intros ->. Qed.

(** C8, the code at the failing input.  For a repository named
    [my.github.io] both copies of [_parse_github_url] return [myhub.io]:
    [replace] takes out the ".git" inside the name, where stripping a
    trailing ".git" leaves the name as it is. *)
Theorem parse_github_url_removes_inner_git :
  _parse_github_url "https://github.com/octo/my.github.io"
  = (Some "octo", Some "myhub.io")
  /\ SolutionProvider._parse_github_url "https://github.com/octo/my.github.io"
     = (Some "octo", Some "myhub.io")
  /\ PyStr.removesuffix ".git" "my.github.io" = "my.github.io"
  /\ _parse_github_url "https://github.com/octo/my.github.io.git"
     = (Some "octo", Some "myhub.io").
Proof. repeat split; reflexivity. Qed.

End Repository.

(** ** The orchestrator *)

Section Orchestration.

Import Supervisor.

Variable json_dumps : value -> string.
Variable new_RepoStructureFunction : result unit.
Variable new_LogAnalysisFunction : result unit.
Variable new_SolutionProviderAgent : result unit.
Variable repository_structure_body : value -> result value.
Variable logs_body : value -> value -> result value.
Variable solution_body : value -> value -> result value.
Variable get_pipeline_source_branch : value -> result value.

Abbreviation repo_stage :=
  (handle_repo_structure json_dumps new_RepoStructureFunction
     repository_structure_body).
Abbreviation logs_stage :=
  (handle_log_analysis json_dumps new_LogAnalysisFunction logs_body).
Abbreviation solution_stage :=
  (handle_solution_provider json_dumps new_SolutionProviderAgent
     solution_body).
Abbreviation body :=
  (orchestrate json_dumps new_RepoStructureFunction new_LogAnalysisFunction
     new_SolutionProviderAgent repository_structure_body logs_body
     solution_body get_pipeline_source_branch).
Abbreviation entrypoint :=
  (orchestrate_analysis json_dumps new_RepoStructureFunction
     new_LogAnalysisFunction new_SolutionProviderAgent
     repository_structure_body logs_body solution_body
     get_pipeline_source_branch).

Lemma aggregate_status (error_info solution r : value) :
  _aggregate_response error_info solution = Ok r ->
  get r "status" = Ok (VStr "success")
  /\ get r "solution_recommendations" = Ok (VDict [("solution", solution)]).
Proof.
  unfold _aggregate_response.
  destruct (get error_info "pipeline_name") as [name|e]; [|discriminate].
  destruct (get error_info "stage") as [stage|e]; [|discriminate].
  cbn [Py.bind]. intros [= <-]. split; reflexivity.
Qed.

Lemma extract_error_info_dict (event error_info : value) :
  _extract_error_info event = Ok error_info ->
  exists name stage rest,
    error_info = VDict (("pipeline_name", name) :: ("stage", stage) :: rest).
Proof.
  unfold _extract_error_info.
  repeat match goal with
         | |- context [Py.bind ?m _] =>
             destruct m; cbn [Py.bind]; [|discriminate]
         end.
  intros [= <-]. eauto.
Qed.

(** No exception escapes the body when the payload carries the event as a
    dict whose fields can be read and the branch lookup returns: whatever
    the three stages do, the body returns. *)
Lemma orchestrate_returns (payload pipeline_event branch error_info : value) :
  get payload "event" = Ok pipeline_event ->
  get_pipeline_source_branch pipeline_event = Ok branch ->
  _extract_error_info pipeline_event = Ok error_info ->
  exists r, body payload = Ok r.
Proof.
  intros Hp Hb He. unfold orchestrate.
  rewrite Hp; cbn [Py.bind]. rewrite Hb; cbn [Py.bind].
  rewrite He; cbn [Py.bind].
  destruct (extract_error_info_dict _ _ He) as (name & stage & rest & ->).
  eexists. reflexivity.
Qed.

(** C10.  Whenever no exception escapes the orchestrator's body, the
    response it returns has top-level status "success" and carries the
    solution stage's response as its solution, whatever the three stages
    returned.  A stage whose own work raises [e] answers with status code
    200 and a body holding an ["error"] record (for the solution stage, the
    "Failed to generate solution" record), so a failure inside a stage
    reaches the orchestrator as an ordinary value. *)
Theorem stage_errors_leave_top_level_success (payload r : value) :
  body payload = Ok r ->
  entrypoint payload = r
  /\ get r "status" = Ok (VStr "success")
  /\ (exists error_context repo_structure,
        get r "solution_recommendations"
        = Ok (VDict [("solution",
                      solution_stage
                        (VDict [("error_context", error_context);
                                ("repo_structure", repo_structure)]))]))
  /\ (forall branch_name e,
        new_RepoStructureFunction = Ok tt ->
        repository_structure_body branch_name = Raise e ->
        repo_stage (VDict [("branch_name", branch_name)])
        = http 200 (error_body json_dumps e))
  /\ (forall error_info pipeline_event e,
        new_LogAnalysisFunction = Ok tt ->
        logs_body error_info pipeline_event = Raise e ->
        logs_stage (VDict [("error_info", error_info);
                           ("pipeline_event", pipeline_event)])
        = http 200 (error_body json_dumps e))
  /\ (forall error_context repo_structure e,
        new_SolutionProviderAgent = Ok tt ->
        solution_body repo_structure error_context = Raise e ->
        solution_stage (VDict [("error_context", error_context);
                               ("repo_structure", repo_structure)])
        = http 200
            (json_dumps
               (VDict [("error", VStr "Failed to generate solution");
                       ("details", VStr (str_of_exn e));
                       ("problematic_file", VNone);
                       ("solution",
                        VStr "Unable to generate solution due to error")]))).
Proof.
  intros H. split; [|split; [|split; [|split; [|split]]]].
  - unfold orchestrate_analysis. now rewrite H.
  - unfold orchestrate in H.
    destruct (get payload "event") as [pe|]; [|discriminate].
    cbn [Py.bind] in H.
    destruct (get_pipeline_source_branch pe) as [b|]; [|discriminate].
    cbn [Py.bind] in H.
    destruct (_extract_error_info pe) as [ei|]; [|discriminate].
    cbn [Py.bind] in H. now apply aggregate_status in H.
  - unfold orchestrate in H.
    destruct (get payload "event") as [pe|]; [|discriminate].
    cbn [Py.bind] in H.
    destruct (get_pipeline_source_branch pe) as [b|]; [|discriminate].
    cbn [Py.bind] in H.
    destruct (_extract_error_info pe) as [ei|]; [|discriminate].
    cbn [Py.bind] in H. apply aggregate_status in H. destruct H as [_ H].
    eexists. eexists. exact H.
  - intros branch_name e Hnew Hbody.
    unfold handle_repo_structure, analyze_repository_structure, error_body.
    cbn [get_default lookup String.eqb Ascii.eqb Bool.eqb Py.bind].
    rewrite Hnew. cbn [Py.bind]. rewrite Hbody. reflexivity.
  - intros error_info pipeline_event e Hnew Hbody.
    unfold handle_log_analysis, analyze_logs, error_body.
    rewrite Hnew.
    cbn [get_default lookup String.eqb Ascii.eqb Bool.eqb Py.bind].
    rewrite Hbody. reflexivity.
  - intros error_context repo_structure e Hnew Hbody.
    unfold handle_solution_provider, _generate_solution.
    rewrite Hnew.
    cbn [get_default lookup String.eqb Ascii.eqb Bool.eqb Py.bind].
    rewrite Hbody. reflexivity.
Qed.

End Orchestration.

Example all_stages_fail_response :
  all_stages_fail
  = VDict [("status", VStr "success");
           ("pipeline_info",
            VDict [("name", VStr "app"); ("stage", VStr "Build")]);
           ("solution_recommendations",
            VDict [("solution",
                    Supervisor.http 200
                      "{error: Failed to generate solution}")])].
Proof. reflexivity. Qed.

(** The theorem at the run in which every stage fails. *)
Lemma stage_errors_leave_top_level_success_witness :
  get all_stages_fail "status" = Ok (VStr "success").
Proof.
  apply (proj1 (proj2 (stage_errors_leave_top_level_success
                         dumps_error (Ok tt) (Ok tt) (Ok tt)
                         failing_repo failing_logs failing_solution
                         main_branch failure_payload all_stages_fail
                         eq_refl))).
Defined.

(** A payload without the event: the exception escapes the body and the
    top-level status is "error". *)
Example missing_event_is_an_error :
  get (Supervisor.orchestrate_analysis dumps_error (Ok tt) (Ok tt) (Ok tt)
         failing_repo failing_logs failing_solution main_branch (VDict []))
      "status"
  = Ok (VStr "error").
Proof. reflexivity. Qed.

(* ================================================================== *)
(** * Further properties of the log analysis *)
(* ================================================================== *)

(** ** What the bundle keeps and drops *)

Section BundleMore.

Import LogAnalysis.
Local Open Scope Z_scope.

Lemma last_n_all {A : Type} (n : nat) (l : list A) :
  (List.length l <= n)%nat -> last_n n l = l.
Proof.
  intros H. unfold last_n. replace (List.length l - n)%nat with 0%nat by lia.
  reflexivity.
Qed.

Lemma sorted_app_le (l1 l2 : list LogEvent) :
  StronglySorted ts_le (l1 ++ l2) ->
  forall a b, In a l1 -> In b l2 -> timestamp a <= timestamp b.
Proof.
  induction l1 as [|x r IH]; simpl; intros H a b Ha Hb; [contradiction|].
  inversion H as [|? ? Hr Hx]; subst.
  destruct Ha as [<-|Ha].
  - rewrite Forall_forall in Hx. apply Hx. apply in_or_app. now right.
  - now apply (IH Hr a b).
Qed.

Lemma partition_perm {A : Type} (p q : A -> bool) (l : list A) :
  Forall (fun x => p x = negb (q x)) l ->
  Permutation (filter p l ++ filter q l) l.
Proof.
  induction 1 as [|x r Hx _ IH]; simpl; [reflexivity|].
  rewrite Hx. destruct (q x); simpl.
  - rewrite <- Permutation_middle. now constructor.
  - now constructor.
Qed.

(** Assembling a bundle's [logs] again gives the same [logs]: the bundle
    is already sorted and already truncated. *)
Theorem bundle_assembly_is_idempotent (all_logs : list LogEvent) :
  let bundle := sort_and_truncate all_logs in
  let again := sort_and_truncate (logs bundle) in
  logs again = logs bundle
  /\ total_events again = total_events bundle
  /\ total_native again = Nat.min (total_native bundle) 50.
Proof.
  intros bundle again.
  assert (Hs : sort_by_timestamp (logs bundle) = logs bundle)
    by apply sort_sorted_id, sort_sorted.
  assert (He : filter is_event (logs bundle)
               = filter is_event (sort_by_timestamp all_logs)).
  { unfold bundle. now rewrite bundle_events, filter_sort. }
  assert (Hn : filter is_native (logs bundle)
               = last_n 50 (filter is_native (sort_by_timestamp all_logs))).
  { unfold bundle. now rewrite bundle_natives, filter_sort. }
  split; [|split].
  - change (logs again)
      with (sort_by_timestamp
              (filter is_event (sort_by_timestamp (logs bundle))
               ++ last_n 50 (filter is_native
                               (sort_by_timestamp (logs bundle))))).
    rewrite Hs, He, Hn.
    rewrite last_n_all by (rewrite last_n_length; lia). reflexivity.
  - change (total_events again)
      with (List.length (filter is_event (sort_by_timestamp (logs bundle)))).
    now rewrite Hs, He.
  - change (total_native again)
      with (List.length (filter is_native (sort_by_timestamp (logs bundle)))).
    rewrite Hs, Hn. now rewrite last_n_length.
Qed.

(** The native-kind entries the truncation drops are never newer than one
    it keeps: [total_native - 50] entries are dropped, and each of them has
    a timestamp not above that of every kept native-kind entry. *)
Theorem truncation_drops_the_oldest_native_entries (all_logs : list LogEvent) :
  let bundle := sort_and_truncate all_logs in
  exists dropped,
    sort_by_timestamp (filter is_native all_logs)
    = dropped ++ filter is_native (logs bundle)
    /\ List.length dropped = (total_native bundle - 50)%nat
    /\ forall d k, In d dropped -> In k (filter is_native (logs bundle)) ->
                   timestamp d <= timestamp k.
Proof.
  intros bundle. unfold bundle. rewrite bundle_natives.
  set (natives := sort_by_timestamp (filter is_native all_logs)).
  exists (firstn (List.length natives - 50) natives).
  split; [|split].
  - unfold last_n. now rewrite firstn_skipn.
  - rewrite length_firstn. unfold sort_and_truncate; cbn [total_native].
    rewrite filter_sort. fold natives. lia.
  - apply sorted_app_le. unfold last_n. rewrite firstn_skipn.
    apply sort_sorted.
Qed.

(** With at most 50 native-kind entries among entries that are all of
    event or native kind, nothing is dropped: [logs] is a rearrangement of
    what was fetched. *)
Theorem small_fetch_is_kept_whole (all_logs : list LogEvent) :
  Forall (fun e => is_event e = true \/ is_native e = true) all_logs ->
  (List.length (filter is_native all_logs) <= 50)%nat ->
  Permutation (logs (sort_and_truncate all_logs)) all_logs.
Proof.
  intros Hkind Hfew. unfold sort_and_truncate; cbn [logs].
  rewrite sort_perm.
  rewrite last_n_all by now rewrite filter_sort, sort_length.
  rewrite partition_perm; [apply sort_perm|].
  apply (Permutation_Forall (Permutation_sym (sort_perm all_logs))).
  eapply Forall_impl; [|exact Hkind].
  intros e [He|Hn].
  - now rewrite He, (event_not_native _ He).
  - now rewrite Hn, (native_not_event _ Hn).
Qed.

(** The theorem at the two entries of one instant. *)
Lemma small_fetch_is_kept_whole_witness :
  Permutation (logs (sort_and_truncate [native_at_5; event_at_5]))
              [native_at_5; event_at_5].
Proof.
  apply small_fetch_is_kept_whole.
  - constructor; [right; reflexivity|].
    constructor; [left; reflexivity|]. constructor.
  - vm_compute. lia.
Defined.

End BundleMore.

(** ** Pages, tokens and the entries a fetch returns *)

Section FetchMore.

Import LogAnalysis.
Local Open Scope Z_scope.

Variable St : Type.
Variable get_log_events : GetLogEvents -> St -> result Page * St.
Variable describe_log_streams : string -> St -> result (list string) * St.

Abbreviation World := (World St).
Abbreviation call := (call_get_log_events St get_log_events).
Abbreviation native_loop := (around_failure_loop St get_log_events).
Abbreviation event_loop := (all_events_loop St get_log_events).
Abbreviation fetch_group :=
  (fetch_group St get_log_events describe_log_streams).
Abbreviation fetch_groups :=
  (fetch_groups St get_log_events describe_log_streams).

Lemma served_one (req : GetLogEvents) (page : Page) :
  served [{| request := req; response := Ok page |}] = page_events page.
Proof. unfold served. simpl. apply app_nil_r. Qed.

Lemma native_loop_served (fuel : nat) (g s : string) (a b : Z) :
  forall events tok w evs w',
    native_loop fuel g s a b events tok w = (Done evs, w') ->
    exists new, calls w' = calls w ++ new
                /\ evs = events ++ map (tag g "native") (served new).
Proof.
  induction fuel as [|fuel IH]; intros events tok w evs w' H; [discriminate|].
  rewrite native_loop_step in H.
  destruct (call _ w) as [[page|e] w1] eqn:E;
    [apply call_trace in E | discriminate].
  cbv zeta in H. destruct (negb (goes_on page) || _).
  - injection H as <- <-. eexists. split; [exact E|]. now rewrite served_one.
  - apply IH in H. destruct H as [new [Hc ->]].
    exists ({| request := request_of g s a b tok; response := Ok page |}
            :: new).
    split; [rewrite Hc, E, <- app_assoc; reflexivity|].
    change (served (_ :: new)) with (page_events page ++ served new).
    now rewrite map_app, app_assoc.
Qed.

Lemma event_loop_served (fuel : nat) (g s : string) (a b : Z) :
  forall events tok w evs w',
    event_loop fuel g s a b events tok w = (Done evs, w') ->
    exists new, calls w' = calls w ++ new
                /\ evs = events ++ map (tag g "event") (served new).
Proof.
  induction fuel as [|fuel IH]; intros events tok w evs w' H; [discriminate|].
  rewrite event_loop_step in H.
  destruct (call _ w) as [[page|e] w1] eqn:E;
    [apply call_trace in E | discriminate].
  cbv zeta in H. destruct (negb (goes_on page)).
  - injection H as <- <-. eexists. split; [exact E|]. now rewrite served_one.
  - apply IH in H. destruct H as [new [Hc ->]].
    exists ({| request := request_of g s a b tok; response := Ok page |}
            :: new).
    split; [rewrite Hc, E, <- app_assoc; reflexivity|].
    change (served (_ :: new)) with (page_events page ++ served new).
    now rewrite map_app, app_assoc.
Qed.

Lemma native_loop_chained (fuel : nat) (g s : string) (a b : Z) :
  forall events tok w r w',
    native_loop fuel g s a b events tok w = (r, w') ->
    exists new, calls w' = calls w ++ new /\ chained tok new.
Proof.
  induction fuel as [|fuel IH]; intros events tok w r w' H.
  - injection H as <- <-. exists []. now rewrite app_nil_r.
  - rewrite native_loop_step in H.
    destruct (call _ w) as [[page|e] w1] eqn:E; apply call_trace in E.
    + cbv zeta in H. destruct (negb (goes_on page) || _).
      * injection H as <- <-. eexists. split; [exact E|]. simpl. auto.
      * apply IH in H. destruct H as [new [Hc Hn]].
        exists ({| request := request_of g s a b tok; response := Ok page |}
                :: new).
        split; [rewrite Hc, E, <- app_assoc; reflexivity|].
        simpl. auto.
    + injection H as <- <-. eexists. split; [exact E|]. simpl. auto.
Qed.

Lemma event_loop_chained (fuel : nat) (g s : string) (a b : Z) :
  forall events tok w r w',
    event_loop fuel g s a b events tok w = (r, w') ->
    exists new, calls w' = calls w ++ new /\ chained tok new.
Proof.
  induction fuel as [|fuel IH]; intros events tok w r w' H.
  - injection H as <- <-. exists []. now rewrite app_nil_r.
  - rewrite event_loop_step in H.
    destruct (call _ w) as [[page|e] w1] eqn:E; apply call_trace in E.
    + cbv zeta in H. destruct (negb (goes_on page)).
      * injection H as <- <-. eexists. split; [exact E|]. simpl. auto.
      * apply IH in H. destruct H as [new [Hc Hn]].
        exists ({| request := request_of g s a b tok; response := Ok page |}
                :: new).
        split; [rewrite Hc, E, <- app_assoc; reflexivity|].
        simpl. auto.
    + injection H as <- <-. eexists. split; [exact E|]. simpl. auto.
Qed.

(** Each fetch returns every event of every page it was served, in the
    order served, tagged with the group and the fetch's kind: nothing is
    left out and nothing is added. *)
Theorem fetch_returns_all_served_events
    (fuel : nat) (log_group stream_name : string) (start_ms end_ms : Z)
    (w : World) :
  (forall evs w',
      _get_all_events_from_stream St get_log_events fuel
        log_group stream_name start_ms end_ms w = (Done evs, w') ->
      exists new, calls w' = calls w ++ new
                  /\ evs = map (tag log_group "event") (served new))
  /\ (forall evs w',
        _get_events_around_failure St get_log_events fuel
          log_group stream_name start_ms end_ms w = (Done evs, w') ->
        exists new, calls w' = calls w ++ new
                    /\ evs = map (tag log_group "native") (served new)).
Proof.
  split; intros evs w' H.
  - now apply event_loop_served in H.
  - now apply native_loop_served in H.
Qed.

(** Pagination passes tokens on faithfully: in both loops the first request
    carries no token, every later request carries the [nextForwardToken] of
    the response just before it, and no request follows a call that
    raised.  This holds however the loop ends. *)
Theorem pagination_chains_tokens
    (fuel : nat) (log_group stream_name : string) (start_ms end_ms : Z)
    (w : World) :
  (exists new,
      calls (snd (_get_all_events_from_stream St get_log_events fuel
                    log_group stream_name start_ms end_ms w))
      = calls w ++ new /\ chained None new)
  /\ (exists new,
        calls (snd (_get_events_around_failure St get_log_events fuel
                      log_group stream_name start_ms end_ms w))
        = calls w ++ new /\ chained None new).
Proof.
  split.
  - unfold _get_all_events_from_stream.
    destruct (all_events_loop _ _ _ _ _ _ _ _ _ _) as [r w'] eqn:E.
    now apply event_loop_chained in E.
  - unfold _get_events_around_failure.
    destruct (around_failure_loop _ _ _ _ _ _ _ _ _ _) as [r w'] eqn:E.
    now apply native_loop_chained in E.
Qed.

Lemma tagged_kind (g kind : string) (evs : list OutputLogEvent) :
  Forall (fun e => log_group e = g /\ type e = kind) (map (tag g kind) evs).
Proof. apply Forall_forall. intros e He. apply in_map_iff in He.
  destruct He as [ev [<- _]]. now split. Qed.

Lemma fetch_group_kind (fuel : nat) (g : string) (a b : Z)
    (w w' : World) (evs : list LogEvent) :
  fetch_group fuel g a b w = (Done evs, w') ->
  Forall (fun e => log_group e = g /\ type e = kind_of g) evs.
Proof.
  unfold LogAnalysis.fetch_group, kind_of.
  destruct (describe_log_streams g (store w)) as [[[|stream rest]|e] s'].
  - intros [= <- <-]. constructor.
  - destruct (is_event_log g); intros H.
    + apply event_loop_served in H. destruct H as [new [_ ->]].
      apply tagged_kind.
    + apply native_loop_served in H. destruct H as [new [_ ->]].
      apply tagged_kind.
  - discriminate.
Qed.

Lemma fetch_groups_kind (fuel : nat) (a b : Z) (all_groups : list string)
    (log_groups : list string) :
  forall all_logs w all_logs' w',
    incl log_groups all_groups ->
    Forall (from_groups all_groups) all_logs ->
    fetch_groups fuel log_groups a b all_logs w = (Done all_logs', w') ->
    Forall (from_groups all_groups) all_logs'.
Proof.
  induction log_groups as [|g rest IH];
    intros all_logs w all_logs' w' Hin Hacc H; simpl in H.
  - now injection H as <- <-.
  - assert (Hrest : incl rest all_groups)
      by (intros x Hx; apply Hin; now right).
    destruct (fetch_group fuel g a b w) as [[evs|e|] w1] eqn:E.
    + apply (IH _ _ _ _ Hrest) in H; [exact H|].
      apply Forall_app. split; [exact Hacc|].
      apply fetch_group_kind in E.
      eapply Forall_impl; [|exact E].
      intros x [Hg Hk]. split; [rewrite Hg; apply Hin; now left|].
      now rewrite Hk, Hg.
    + now apply (IH _ _ _ _ Hrest) in H.
    + discriminate.
Qed.

Lemma bundle_logs_incl (all_logs : list LogEvent) (e : LogEvent) :
  In e (logs (sort_and_truncate all_logs)) -> In e all_logs.
Proof.
  unfold sort_and_truncate; cbn [logs]. intros H.
  apply (Permutation_in _ (sort_perm _)) in H.
  apply (Permutation_in _ (sort_perm all_logs)).
  apply in_app_or in H. destruct H as [H|H].
  - now apply filter_In in H.
  - unfold last_n in H. apply in_skipn in H. now apply filter_In in H.
Qed.

(** A per-group failure never becomes a failure of the fetch. *)
Lemma fetch_groups_never_raise (fuel : nat) (a b : Z)
    (log_groups : list string) :
  forall all_logs w e,
    fst (fetch_groups fuel log_groups a b all_logs w) <> Raised e.
Proof.
  induction log_groups as [|g rest IH]; intros all_logs w e; simpl.
  - discriminate.
  - destruct (fetch_group fuel g a b w) as [[evs|e'|] w1]; simpl;
      [apply IH | apply IH | discriminate].
Qed.

Lemma fetch_group_native_stops (g : string) (a b : Z) (w : World) :
  is_event_log g = false -> fst (fetch_group 101 g a b w) <> OutOfFuel.
Proof.
  intros K. unfold LogAnalysis.fetch_group. rewrite K.
  destruct (describe_log_streams g (store w)) as [[[|stream rest]|e] s'];
    try discriminate.
  unfold _get_events_around_failure. apply native_loop_stops; simpl; lia.
Qed.

Lemma fetch_groups_native_done (a b : Z) (log_groups : list string) :
  Forall (fun g => is_event_log g = false) log_groups ->
  forall all_logs w,
  exists all_logs' w',
    fetch_groups 101 log_groups a b all_logs w = (Done all_logs', w').
Proof.
  induction 1 as [|g rest Hg _ IH]; intros all_logs w; simpl.
  - eauto.
  - pose proof (fetch_group_native_stops g a b w Hg) as Hstop.
    destruct (fetch_group 101 g a b w) as [[evs|e|] w1]; simpl in Hstop.
    + apply IH.
    + apply IH.
    + now contradiction Hstop.
Qed.

Variable datetime : Type.
Variable epoch_ms : datetime -> Z.
Variable utcnow : datetime.
Variable minus_one_hour : datetime -> datetime.

Abbreviation fetch_logs :=
  (_fetch_logs_in_timeframe St get_log_events describe_log_streams
     datetime epoch_ms utcnow minus_one_hour).

(** Every entry of a returned bundle comes from one of the requested log
    groups and carries the kind of its group: "event" when the group's name
    contains "-event-log-group", "native" otherwise. *)
Theorem bundle_entries_match_their_groups
    (fuel : nat) (log_groups : list string)
    (start_time end_time : option datetime) (w w' : World)
    (bundle : LogBundle) :
  fetch_logs fuel log_groups start_time end_time w = (Done bundle, w') ->
  Forall (from_groups log_groups) (logs bundle).
Proof.
  unfold _fetch_logs_in_timeframe.
  destruct (window _ _ _ start_time end_time) as [t0 t1].
  destruct (LogAnalysis.fetch_groups _ _ _ _ _ _ _ _ _)
    as [[all_logs|e|] w1] eqn:E; intros [= <- <-].
  apply fetch_groups_kind with (all_groups := log_groups) in E;
    [|apply incl_refl|constructor].
  apply Forall_forall. intros x Hx. apply bundle_logs_incl in Hx.
  rewrite Forall_forall in E. now apply E.
Qed.

(** Over native-kind groups the fetch always returns a bundle within 101
    iterations per group, whatever the store does: a store that raises, has
    no stream, or never stops serving pages cannot make it fail or run for
    ever. *)
Theorem native_fetch_always_returns_a_bundle
    (log_groups : list string)
    (start_time end_time : option datetime) (w : World) :
  Forall (fun g => is_event_log g = false) log_groups ->
  exists bundle w',
    fetch_logs 101 log_groups start_time end_time w = (Done bundle, w').
Proof.
  intros Hnative. unfold _fetch_logs_in_timeframe.
  destruct (window _ _ _ start_time end_time) as [t0 t1].
  destruct (fetch_groups_native_done (epoch_ms t0) (epoch_ms t1)
              log_groups Hnative [] w) as [all_logs [w' ->]].
  eauto.
Qed.

(** When either end of the execution window is missing, both are replaced:
    every event-kind request asks for the hour that ends now and every
    native-kind request for the 30 minutes that end now, so an instant that
    was supplied alone is not used. *)
Theorem missing_instant_means_default_window
    (fuel : nat) (log_groups : list string)
    (start_time end_time : option datetime) (w w' : World)
    (r : outcome LogBundle) :
  start_time = None \/ end_time = None ->
  fetch_logs fuel log_groups start_time end_time w = (r, w') ->
  exists new,
    calls w' = calls w ++ new
    /\ Forall (in_window (epoch_ms (minus_one_hour utcnow))
                         (epoch_ms utcnow)) new.
Proof.
  intros Hmissing. unfold _fetch_logs_in_timeframe.
  assert (Hw : window datetime utcnow minus_one_hour start_time end_time
               = (minus_one_hour utcnow, utcnow)).
  { unfold window. destruct Hmissing as [-> | ->]; [reflexivity|].
    now destruct start_time. }
  rewrite Hw.
  destruct (LogAnalysis.fetch_groups _ _ _ _ _ _ _ _ _) as [o w1] eqn:E.
  apply fetch_groups_requests in E.
  destruct o; intros [= <- <-]; exact E.
Qed.

End FetchMore.

(** The theorem at a native-kind group of the store that never ends a
    stream. *)
Lemma native_fetch_always_returns_a_bundle_witness :
  exists bundle w',
    LogAnalysis._fetch_logs_in_timeframe nat chatty one_stream
      Z (fun t => t) 7200000%Z (fun t => (t - 3600000)%Z)
      101 ["/aws/codebuild/app"] (Some 0%Z) (Some 3600000%Z)
      (LogAnalysis.fresh 0%nat)
    = (LogAnalysis.Done bundle, w').
Proof.
  apply native_fetch_always_returns_a_bundle.
  repeat constructor.
Defined.

(** The theorem at the one-hour run. *)
Lemma bundle_entries_match_their_groups_witness :
  Forall (from_groups ["/aws/codebuild/app"; "app-event-log-group"])
         (LogAnalysis.logs
            (LogAnalysis.sort_and_truncate
               [LogAnalysis.tag "/aws/codebuild/app" "native"
                  {| LogAnalysis.ev_timestamp := 3600000%Z;
                     LogAnalysis.ev_message := "line" |};
                LogAnalysis.tag "app-event-log-group" "event"
                  {| LogAnalysis.ev_timestamp := 3600000%Z;
                     LogAnalysis.ev_message := "line" |}])).
Proof.
  apply (bundle_entries_match_their_groups unit single one_stream
           Z (fun t => t) 7200000%Z (fun t => (t - 3600000)%Z)
           5 ["/aws/codebuild/app"; "app-event-log-group"]
           (Some 0%Z) (Some 3600000%Z)
           (LogAnalysis.fresh tt) (snd hour_run)).
  reflexivity.
Defined.

(** The theorem at a run whose end instant is missing. *)
Lemma missing_instant_means_default_window_witness :
  exists new,
    LogAnalysis.calls
      (snd (LogAnalysis._fetch_logs_in_timeframe unit single one_stream
              Z (fun t => t) 7200000%Z (fun t => (t - 3600000)%Z)
              5 ["/aws/codebuild/app"; "app-event-log-group"]
              (Some 0%Z) None (LogAnalysis.fresh tt)))
    = LogAnalysis.calls (LogAnalysis.fresh tt) ++ new
    /\ Forall (in_window 3600000%Z 7200000%Z) new.
Proof.
  eapply (missing_instant_means_default_window unit single one_stream
            Z (fun t => t) 7200000%Z (fun t => (t - 3600000)%Z)
            5 ["/aws/codebuild/app"; "app-event-log-group"]
            (Some 0%Z) None (LogAnalysis.fresh tt)).
  - now right.
  - apply surjective_pairing.
Defined.

(** With the end instant missing, the supplied start (instant 0) is not
    used: the requests are those of the default window. *)
Example default_window_requests :
  map LogAnalysis.request
    (LogAnalysis.calls
       (snd (LogAnalysis._fetch_logs_in_timeframe unit single one_stream
               Z (fun t => t) 7200000%Z (fun t => (t - 3600000)%Z)
               5 ["/aws/codebuild/app"; "app-event-log-group"]
               (Some 0%Z) None (LogAnalysis.fresh tt))))
  = [ {| LogAnalysis.logGroupName := "/aws/codebuild/app";
         LogAnalysis.logStreamName := "stream-1";
         LogAnalysis.startTime := 5400000%Z;
         LogAnalysis.endTime := 7200000%Z;
         LogAnalysis.nextToken := None |};
      {| LogAnalysis.logGroupName := "app-event-log-group";
         LogAnalysis.logStreamName := "stream-1";
         LogAnalysis.startTime := 3600000%Z;
         LogAnalysis.endTime := 7200000%Z;
         LogAnalysis.nextToken := None |} ].
Proof. reflexivity. Qed.

(** ** More on log-group resolution *)

Section StripFacts.

Variable p : ascii -> bool.


Lemma lstrip_starts_clean (s : string) : starts_clean p (PyStr.lstrip_by p s).
Proof.
  induction s as [|c t IH]; simpl; [exact I|].
  destruct (p c) eqn:E; [exact IH | exact E].
Qed.

Lemma lstrip_clean (s : string) :
  starts_clean p s -> PyStr.lstrip_by p s = s.
Proof. destruct s as [|c t]; simpl; [reflexivity|]. now intros ->. Qed.

Lemma rstrip_starts_clean (s : string) :
  starts_clean p s -> starts_clean p (PyStr.rstrip_by p s).
Proof.
  destruct s as [|c t]; simpl; [exact id|]. intros H. rewrite H.
  rewrite andb_false_r. exact H.
Qed.

Lemma rstrip_idem (s : string) :
  PyStr.rstrip_by p (PyStr.rstrip_by p s) = PyStr.rstrip_by p s.
Proof.
  induction s as [|c t IH]; simpl; [reflexivity|].
  destruct (PyStr.is_empty (PyStr.rstrip_by p t) && p c) eqn:E;
    [reflexivity|].
  simpl. now rewrite IH, E.
Qed.

(** Stripping twice is stripping once. *)
Lemma strip_by_idem (s : string) :
  PyStr.strip_by p (PyStr.strip_by p s) = PyStr.strip_by p s.
Proof.
  unfold PyStr.strip_by.
  rewrite (lstrip_clean (PyStr.rstrip_by p (PyStr.lstrip_by p s))).
  - apply rstrip_idem.
  - apply rstrip_starts_clean, lstrip_starts_clean.
Qed.

End StripFacts.

Section ResolutionMore.

Import LogAnalysis.

Variable get_parameter : string -> result string.
Variable repr : value -> string.

Abbreviation read_params := (read_params get_parameter).
Abbreviation resolve := (_get_log_groups_from_ssm get_parameter repr).


Lemma read_params_stored (paths : list string) :
  forall acc l,
    Forall (stored_identifier get_parameter) acc ->
    read_params paths acc = Ok l -> Forall (stored_identifier get_parameter) l.
Proof.
  induction paths as [|path rest IH]; intros acc l Hacc H; simpl in H.
  - now injection H as <-.
  - destruct (get_parameter path) as [v|e] eqn:E.
    + apply IH in H; [exact H|].
      destruct (PyStr.is_empty (PyStr.strip v)) eqn:B; [exact Hacc|].
      apply Forall_app. split; [exact Hacc|]. constructor; [|constructor].
      split; [now apply is_empty_false|]. split.
      * apply strip_by_idem.
      * now exists path, v.
    + destruct e; discriminate.
Qed.

(** Every identifier resolution returns is the value of a parameter of the
    store with the surrounding whitespace removed: it is not empty and has
    no leading or trailing whitespace left. *)
Theorem resolved_identifiers_are_trimmed_parameter_values
    (pipeline_name pipeline_event : value) (l : list string) :
  resolve pipeline_name pipeline_event = Ok l ->
  Forall (stored_identifier get_parameter) l.
Proof.
  unfold _get_log_groups_from_ssm.
  repeat match goal with
         | |- context [Py.bind ?m _] =>
             destruct m; cbn [Py.bind]; [|discriminate]
         end.
  destruct (_ || _); [discriminate|].
  destruct (is_str "CodeBuild" _).
  - destruct (LogAnalysis.read_params _ _ []) as [groups|e] eqn:R;
      [|discriminate].
    cbn [Py.bind]. destruct groups; [discriminate|]. intros [= <-].
    eapply read_params_stored; [|exact R]. constructor.
  - destruct (lower_of _); [|discriminate]. cbn [Py.bind].
    destruct (LogAnalysis.read_params _ _ []) as [groups|e] eqn:R;
      [|discriminate].
    cbn [Py.bind]. destruct groups; [discriminate|]. intros [= <-].
    eapply read_params_stored; [|exact R]. constructor.
Qed.

(** An event that lacks the stage, the action or the provider (or holds an
    empty one) is rejected with the same [ValueError] whatever the parameter
    store holds: resolution fails before the store is consulted. *)
Theorem resolution_rejects_incomplete_events
    (pipeline_name pipeline_event stage_name action_name provider : value) :
  failure_of pipeline_event stage_name action_name provider ->
  truthy stage_name && truthy action_name && truthy provider = false ->
  resolve pipeline_name pipeline_event
  = Raise (ValueError
             ("Missing required information in pipeline event - stage: "
              ++ fmt repr stage_name ++ ", action: " ++ fmt repr action_name
              ++ ", provider: " ++ fmt repr provider)).
Proof.
  intros (detail & type_ & Hd & Hs & Ha & Ht & Hp) Hmissing.
  unfold _get_log_groups_from_ssm.
  rewrite Hd; cbn [Py.bind]. rewrite Hs; cbn [Py.bind].
  rewrite Ha; cbn [Py.bind]. rewrite Ht; cbn [Py.bind].
  rewrite Hp; cbn [Py.bind].
  replace (negb (truthy stage_name) || negb (truthy action_name)
           || negb (truthy provider)) with true; [reflexivity|].
  destruct (truthy stage_name), (truthy action_name), (truthy provider);
    simpl in *; congruence.
Qed.


End ResolutionMore.


(** The theorem at the event without a [detail]. *)
Lemma resolution_rejects_incomplete_events_witness :
  LogAnalysis._get_log_groups_from_ssm ssm_both no_repr (VStr "app") bare_event
  = Raise (ValueError
      "Missing required information in pipeline event - stage: <object>, action: <object>, provider: <object>").
Proof.
  apply (resolution_rejects_incomplete_events ssm_both no_repr
           (VStr "app") bare_event VNone VNone VNone).
  - exists (VDict []), (VDict []). repeat split; reflexivity.
  - reflexivity.
Defined.

(** The theorem at the build failure, both parameters filled in. *)
Lemma resolved_identifiers_are_trimmed_parameter_values_witness :
  Forall (stored_identifier ssm_both)
         ["/codepipeline/app/Build/Compile/CodeBuild/proj";
          "/aws/codebuild/proj"].
Proof.
  apply (resolved_identifiers_are_trimmed_parameter_values ssm_both no_repr
           (VStr "app") build_failure).
  reflexivity.
Defined.



(* ================================================================== *)
(** * Properties of the repository tree *)
(* ================================================================== *)

Section TreeFacts.

Import RepoTree.

Lemma entry_lookup_set (k k' : string) (v : node) (d : list (string * node)) :
  entry_lookup k' (entry_set k v d)
  = if String.eqb k' k then Some v else entry_lookup k' d.
Proof.
  induction d as [|[k0 v0] r IH]; simpl.
  - reflexivity.
  - destruct (String.eqb_spec k k0) as [->|Hk]; simpl.
    + now destruct (String.eqb k' k0).
    + rewrite IH. destruct (String.eqb_spec k' k0) as [->|Hk'];
        [|reflexivity].
      destruct (String.eqb_spec k0 k); [congruence | reflexivity].
Qed.

Lemma is_prefix_refl (p : list string) : is_prefix p p = true.
Proof. induction p; simpl; [reflexivity|]. now rewrite String.eqb_refl. Qed.

Lemma is_prefix_nil (q : list string) : is_prefix q [] = true -> q = [].
Proof. destruct q; [reflexivity | discriminate]. Qed.

Lemma lookup_in_empty (q : list string) :
  lookup_path q (Dir []) <> Some File.
Proof. destruct q; simpl; discriminate. Qed.


Lemma insert_path_step (k k2 : string) (rest : list string) (leaf : node)
    (d : list (string * node)) :
  insert_path (k :: k2 :: rest) leaf (Dir d)
  = (below' <- insert_path (k2 :: rest) leaf (below k d) ;;
     Ok (Dir (entry_set k below' d))).
Proof. reflexivity. Qed.

(** The level an insertion returns is a dict again. *)
Lemma insert_path_dir (p : list string) (leaf : node)
    (d : list (string * node)) (s' : node) :
  p <> [] -> insert_path p leaf (Dir d) = Ok s' -> exists d', s' = Dir d'.
Proof.
  destruct p as [|k [|k2 rest]]; [congruence | |]; intros _.
  - simpl. intros [= <-]. eauto.
  - rewrite insert_path_step.
    destruct (insert_path (k2 :: rest) leaf (below k d)) as [below'|e];
      cbn [Py.bind]; [|discriminate].
    intros [= <-]. eauto.
Qed.

(** An insertion goes through when no level it enters is a file. *)
Lemma insert_path_ok (p : list string) (leaf : node) :
  forall d,
    p <> [] ->
    (forall q, is_prefix q p = true -> q <> p ->
               lookup_path q (Dir d) <> Some File) ->
    exists d', insert_path p leaf (Dir d) = Ok (Dir d').
Proof.
  induction p as [|k rest IH]; intros d Hp Hfree; [congruence|].
  destruct rest as [|k2 rest].
  - simpl. eauto.
  - assert (Hbelow : exists d0, below k d = Dir d0).
    { unfold below. destruct (entry_lookup k d) as [[|d0]|] eqn:E; eauto.
      exfalso. apply (Hfree [k]).
      - simpl. now rewrite String.eqb_refl.
      - discriminate.
      - simpl. now rewrite E. }
    destruct Hbelow as [d0 Hd0].
    destruct (IH d0) as [d1 Hd1]; [discriminate| |].
    + intros q Hq Hne Hfile.
      apply (Hfree (k :: q)).
      * simpl. now rewrite String.eqb_refl.
      * congruence.
      * simpl. unfold below in Hd0.
        destruct (entry_lookup k d) as [c|] eqn:E.
        -- now subst c.
        -- injection Hd0 as <-. now apply lookup_in_empty in Hfile.
    + rewrite insert_path_step, Hd0, Hd1. cbn [Py.bind]. eauto.
Qed.

(** The files of a level after an insertion: the inserted path when a file
    was inserted, and the files from before that are neither at or below
    the inserted path nor above it. *)
Lemma insert_path_files (p : list string) (leaf : node) :
  leaf = File \/ leaf = Dir [] ->
  forall s s' q,
    p <> [] ->
    insert_path p leaf s = Ok s' ->
    (lookup_path q s' = Some File
     <-> (q = p /\ leaf = File)
         \/ (is_prefix p q = false /\ is_prefix q p = false
             /\ lookup_path q s = Some File)).
Proof.
  intros Hleaf.
  assert (Hat : forall r, lookup_path r leaf = Some File
                          <-> r = [] /\ leaf = File).
  { intros r. destruct Hleaf as [-> | ->].
    - destruct r; simpl; split; try tauto; try discriminate.
      intros [H _]; discriminate.
    - split; [intros H; now apply lookup_in_empty in H|].
      intros [_ H]; discriminate. }
  induction p as [|k rest IH]; intros s s' q Hp Hins; [congruence|].
  destruct s as [|d]; [discriminate|].
  destruct q as [|k' q'].
  - (* the empty path reads the level itself, a dict *)
    destruct (insert_path_dir _ _ _ _ Hp Hins) as [d' ->]. simpl.
    split; [discriminate|].
    intros [[H _]|[_ [H _]]]; discriminate.
  - destruct (String.eqb_spec k' k) as [->|Hk].
    + (* same first part *)
      destruct rest as [|k2 rest].
      * simpl in Hins. injection Hins as <-.
        simpl. rewrite entry_lookup_set, !String.eqb_refl. simpl.
        rewrite Hat. split.
        -- intros [-> Hl]. now left.
        -- intros [[[= ->] Hl]|[H _]]; [now split | discriminate].
      * rewrite insert_path_step in Hins.
        destruct (insert_path (k2 :: rest) leaf (below k d))
          as [below'|e] eqn:E; cbn [Py.bind] in Hins; [|discriminate].
        injection Hins as <-.
        cbn [lookup_path]. rewrite entry_lookup_set, String.eqb_refl.
        rewrite (IH _ _ q' ltac:(discriminate) E).
        cbn [is_prefix]. rewrite !String.eqb_refl. cbn [andb].
        unfold below.
        split.
        -- intros [[-> Hl]|[H1 [H2 H3]]]; [now left|].
           right. repeat split; try assumption.
           destruct (entry_lookup k d) as [c|]; [exact H3|].
           now apply lookup_in_empty in H3.
        -- intros [[[= ->] Hl]|[H1 [H2 H3]]]; [now left|].
           right. repeat split; try assumption.
           destruct (entry_lookup k d) as [c|]; [exact H3|discriminate].
    + (* another first part: the entry read is untouched *)
      assert (Hsame : lookup_path (k' :: q') s'
                      = lookup_path (k' :: q') (Dir d)).
      { destruct rest as [|k2 rest].
        - simpl in Hins. injection Hins as <-. simpl.
          rewrite entry_lookup_set.
          destruct (String.eqb_spec k' k); [congruence | reflexivity].
        - rewrite insert_path_step in Hins.
          destruct (insert_path (k2 :: rest) leaf (below k d))
            as [below'|e]; cbn [Py.bind] in Hins; [|discriminate].
          injection Hins as <-. simpl. rewrite entry_lookup_set.
          destruct (String.eqb_spec k' k); [congruence | reflexivity]. }
      rewrite Hsame. cbn [is_prefix].
      assert (E1 : String.eqb k k' = false)
        by (apply String.eqb_neq; congruence).
      assert (E2 : String.eqb k' k = false) by now apply String.eqb_neq.
      rewrite E1, E2. cbn [andb]. split.
      * intros H. right. tauto.
      * intros [[[= -> _] _]|[_ [_ H]]]; [congruence | exact H].
Qed.

Lemma split_not_nil (c : ascii) (s : string) : PyStr.split c s <> [].
Proof.
  destruct s as [|x t]; simpl; [discriminate|].
  destruct (Ascii.eqb x c); [discriminate|].
  destruct (PyStr.split c t); discriminate.
Qed.

Lemma leaf_of_cases (item : TreeItem) :
  leaf_of item = File \/ leaf_of item = Dir [].
Proof. unfold leaf_of. destruct (is_blob item); auto. Qed.

Lemma leaf_of_file (item : TreeItem) :
  leaf_of item = File <-> is_blob item = true.
Proof.
  unfold leaf_of. destruct (is_blob item); split; congruence.
Qed.


Lemma build_files (tree : list TreeItem) :
  forall listed s,
    files_are s listed ->
    (forall a, In a listed -> forallb (may_follow a) tree = true) ->
    well_listed tree = true ->
    exists s', build tree s = Ok s' /\ files_are s' (listed ++ tree).
Proof.
  induction tree as [|x rest IH]; intros listed s Hinv Hold Hwell.
  - exists s. rewrite app_nil_r. now split.
  - destruct Hinv as [[d ->] Hfiles].
    simpl in Hwell. apply andb_prop in Hwell. destruct Hwell as [Hx Hrest].
    assert (Hfollow : forall a, In a listed -> may_follow a x = true).
    { intros a Ha. specialize (Hold a Ha). simpl in Hold.
      now apply andb_prop in Hold. }
    pose proof (split_not_nil "/" (path x)) as Hp.
    fold (parts_of x) in Hp.
    destruct (insert_path_ok (parts_of x) (leaf_of x) d Hp) as [d' Hins].
    { intros q Hq Hne Hfile. apply Hfiles in Hfile.
      apply in_map_iff in Hfile. destruct Hfile as [a [<- Ha]].
      apply filter_In in Ha. destruct Ha as [Ha Hblob].
      specialize (Hfollow a Ha). unfold may_follow in Hfollow.
      rewrite Hblob, Hq in Hfollow. simpl in Hfollow.
      rewrite andb_false_r in Hfollow. discriminate. }
    simpl. rewrite Hins. cbn [Py.bind].
    replace (listed ++ x :: rest) with ((listed ++ [x]) ++ rest)
      by now rewrite <- app_assoc.
    apply IH; [| |exact Hrest].
    + split; [eauto|]. intros q.
      rewrite (insert_path_files _ _ (leaf_of_cases x) _ _ q Hp Hins).
      rewrite filter_app, map_app, in_app_iff.
      rewrite leaf_of_file, Hfiles. simpl.
      destruct (is_blob x) eqn:Bx; simpl; split.
      * intros [[-> _]|[_ [_ H]]]; auto.
      * intros [H|[<-|[]]]; [|now left].
        right. apply in_map_iff in H. destruct H as [a [<- Ha]].
        pose proof Ha as Ha'. apply filter_In in Ha'.
        destruct Ha' as [Ha' Hblob].
        specialize (Hfollow a Ha'). unfold may_follow in Hfollow.
        rewrite Hblob in Hfollow. simpl in Hfollow.
        apply andb_prop in Hfollow. destruct Hfollow as [H1 H2].
        apply negb_true_iff in H1, H2.
        repeat split; try assumption.
        apply in_map_iff. eauto.
      * intros [[_ H]|[_ [_ H]]]; [discriminate | auto].
      * intros [H|[]]. right.
        apply in_map_iff in H. destruct H as [a [<- Ha]].
        pose proof Ha as Ha'. apply filter_In in Ha'.
        destruct Ha' as [Ha' Hblob].
        specialize (Hfollow a Ha'). unfold may_follow in Hfollow.
        rewrite Hblob in Hfollow. simpl in Hfollow.
        apply andb_prop in Hfollow. destruct Hfollow as [H1 H2].
        apply negb_true_iff in H1, H2.
        repeat split; try assumption.
        apply in_map_iff. eauto.
    + intros a Ha. apply in_app_or in Ha. destruct Ha as [Ha|[<-|[]]].
      * specialize (Hold a Ha). simpl in Hold.
        now apply andb_prop in Hold.
      * exact Hx.
Qed.

(** The empty structure has no file, and nothing is listed yet. *)
Lemma files_are_empty : files_are (Dir []) [].
Proof.
  split; [eauto|]. intros q. simpl. split; [|tauto].
  intros H. now apply lookup_in_empty in H.
Qed.

Lemma build_well_listed (tree : list TreeItem) :
  well_listed tree = true ->
  exists s, build tree (Dir []) = Ok s /\ files_are s tree.
Proof.
  intros Hwell.
  apply (build_files tree [] (Dir []) files_are_empty); [|exact Hwell].
  intros a [].
Qed.

(** For a listing in which directories come before their contents, no path
    comes twice and nothing lies below a file, the structure is built
    without an exception and holds "file" exactly at the paths that
    [_extract_file_paths] returns: the nested structure and the flat file
    list describe the same files. *)
Theorem structure_and_file_paths_agree (tree : list TreeItem) :
  well_listed tree = true ->
  exists structure,
    _build_file_structure tree = Ok structure
    /\ forall q,
         lookup_path q structure = Some File
         <-> exists f, In f (_extract_file_paths tree)
                       /\ q = PyStr.split "/" f.
Proof.
  intros Hwell.
  destruct (build_well_listed tree Hwell) as [s [Hb [_ Hfiles]]].
  exists s. split; [exact Hb|]. intros q. rewrite Hfiles.
  unfold _extract_file_paths. split.
  - intros H. apply in_map_iff in H. destruct H as [a [<- Ha]].
    exists (path a). split; [|reflexivity]. apply in_map_iff. eauto.
  - intros [f [Hf ->]]. apply in_map_iff in Hf.
    destruct Hf as [a [<- Ha]]. apply in_map_iff.
    exists a. now split.
Qed.

(** The theorem at the small repository. *)
Lemma structure_and_file_paths_agree_witness :
  exists structure,
    _build_file_structure small_tree = Ok structure
    /\ forall q,
         lookup_path q structure = Some File
         <-> exists f, In f (_extract_file_paths small_tree)
                       /\ q = PyStr.split "/" f.
Proof. apply structure_and_file_paths_agree. reflexivity. Defined.

Example small_tree_structure :
  _build_file_structure small_tree
  = Ok (Dir [("src", Dir [("app.py", File)]);
             ("requirements.txt", File);
             ("Dockerfile", File)]).
Proof. reflexivity. Qed.

(** A directory entry listed after its contents empties the directory. *)
Example late_directory_entry_empties_it :
  _build_file_structure
    [ {| path := "src/app.py"; item_type := "blob" |};
      {| path := "src"; item_type := "tree" |} ]
  = Ok (Dir [("src", Dir [])]).
Proof. reflexivity. Qed.





End TreeFacts.

(** ** Manifests and the classification predicates *)

Section ManifestFacts.

Import RepoTree.

Lemma prefix_lower (x s : string) :
  String.prefix x s = true ->
  String.prefix (PyStr.lower x) (PyStr.lower s) = true.
Proof.
  revert s. induction x as [|a x IH]; intros s.
  - now destruct s.
  - destruct s as [|b s]; simpl; [discriminate|].
    destruct (ascii_dec a b) as [->|]; [|discriminate].
    intros H.
    destruct (ascii_dec (PyStr.lower_char b) (PyStr.lower_char b));
      [now apply IH | congruence].
Qed.

Lemma contains_lower (x s : string) :
  PyStr.contains x s = true ->
  PyStr.contains (PyStr.lower x) (PyStr.lower s) = true.
Proof.
  induction s as [|b s IH]; simpl; intros H;
    apply orb_true_iff in H; apply orb_true_iff;
    destruct H as [H|H]; try discriminate.
  - left. now apply (prefix_lower x "").
  - left. now apply (prefix_lower x (String b s)).
  - right. now apply IH.
Qed.

Lemma prefix_substring (m : nat) (s : string) :
  String.prefix (String.substring 0 m s) s = true.
Proof.
  revert s. induction m as [|m IH]; intros [|c s]; simpl; try reflexivity.
  destruct (ascii_dec c c); [apply IH | congruence].
Qed.

Lemma contains_substring (n m : nat) (s : string) :
  PyStr.contains (String.substring n m s) s = true.
Proof.
  revert s. induction n as [|n IH]; intros s.
  - destruct s; simpl.
    + now destruct m.
    + apply orb_true_iff. left.
      apply (prefix_substring m (String a s)).
  - destruct s as [|c s]; [reflexivity|].
    simpl. apply orb_true_iff. right. apply IH.
Qed.

(** A suffix is a substring. *)
Lemma endswith_contains (s suf : string) :
  PyStr.endswith s suf = true -> PyStr.contains suf s = true.
Proof.
  unfold PyStr.endswith. intros H. apply andb_prop in H.
  destruct H as [_ H]. apply String.eqb_eq in H.
  rewrite <- H at 1. apply contains_substring.
Qed.

Lemma prefix_app_l (a b s : string) :
  String.prefix (a ++ b) s = true -> String.prefix a s = true.
Proof.
  revert s. induction a as [|x a IH]; intros s.
  - now destruct s.
  - destruct s as [|y s]; simpl; [discriminate|].
    destruct (ascii_dec x y); [apply IH | discriminate].
Qed.

Lemma contains_app_l (a b s : string) :
  PyStr.contains (a ++ b) s = true -> PyStr.contains a s = true.
Proof.
  induction s as [|y s IH]; simpl; intros H;
    apply orb_true_iff in H; apply orb_true_iff;
    destruct H as [H|H]; try discriminate.
  - left. now apply (prefix_app_l a b "").
  - left. now apply (prefix_app_l a b (String y s)).
  - right. now apply IH.
Qed.

Lemma lower_char_idem (c : ascii) :
  PyStr.lower_char (PyStr.lower_char c) = PyStr.lower_char c.
Proof.
  destruct c as [[] [] [] [] [] [] [] []]; reflexivity.
Qed.

Lemma lower_idem (s : string) : PyStr.lower (PyStr.lower s) = PyStr.lower s.
Proof.
  induction s as [|c s IH]; simpl; [reflexivity|].
  now rewrite lower_char_idem, IH.
Qed.

(** The classification does not look at letter case: a path and its
    lower-cased form get the same four answers. *)
Theorem classification_ignores_letter_case (p : string) :
  classify (PyStr.lower p) = classify p.
Proof.
  unfold classify, RepoStructure._is_config_file,
    RepoStructure._is_source_file, RepoStructure._is_build_file,
    RepoStructure._is_deployment_file, RepoStructure.any_endswith,
    RepoStructure.any_in.
  now rewrite lower_idem.
Qed.

Lemma config_name_is_config (p : string) :
  PyStr.contains "dockerfile" (PyStr.lower p) = true ->
  RepoStructure._is_config_file p = true.
Proof.
  intros H. unfold RepoStructure._is_config_file, RepoStructure.any_in.
  apply orb_true_iff. right.
  apply existsb_exists. exists "dockerfile". split; [now left | exact H].
Qed.

(** A path that contains "dockerfile" in any letter case, in any directory
    and with any extension, is both a config file and a deployment file. *)
Theorem dockerfiles_are_config_and_deployment (p : string) :
  PyStr.contains "dockerfile" (PyStr.lower p) = true ->
  RepoStructure._is_config_file p = true
  /\ RepoStructure._is_deployment_file p = true.
Proof.
  intros H. split.
  - now apply config_name_is_config.
  - unfold RepoStructure._is_deployment_file, RepoStructure.any_in.
    apply existsb_exists. exists "docker". split.
    + simpl. tauto.
    + apply (contains_app_l "docker" "file"). exact H.
Qed.

(** The theorem at a Dockerfile in a directory. *)
Lemma dockerfiles_are_config_and_deployment_witness :
  RepoStructure._is_config_file "docker/Dockerfile.prod" = true
  /\ RepoStructure._is_deployment_file "docker/Dockerfile.prod" = true.
Proof.
  apply dockerfiles_are_config_and_deployment. reflexivity.
Defined.

(** A path whose content is fetched as a dependency manifest is a build
    file or a config file for the classification. *)
Lemma manifest_is_build_or_config (p : string) :
  is_manifest p = true ->
  RepoStructure._is_build_file p = true
  \/ RepoStructure._is_config_file p = true.
Proof.
  unfold is_manifest, manifest_names. simpl. rewrite orb_false_r.
  intros H.
  assert (Hb : forall cf,
             PyStr.endswith p cf = true ->
             In (PyStr.lower cf) RepoStructure.build_files ->
             RepoStructure._is_build_file p = true).
  { intros cf Hcf Hin. apply existsb_exists. exists (PyStr.lower cf).
    split; [exact Hin|]. now apply contains_lower, endswith_contains. }
  repeat (apply orb_true_iff in H; destruct H as [H|H]).
  - left. apply (Hb _ H). simpl. tauto.
  - left. apply (Hb _ H). simpl. tauto.
  - left. apply (Hb _ H). simpl. tauto.
  - left. apply (Hb _ H). simpl. tauto.
  - right. apply config_name_is_config.
    apply (contains_lower "Dockerfile"). now apply endswith_contains.
Qed.

Variable Host : Type.
Variable _get_file_content : string -> Host -> string * Host.

Lemma content_set_keys (k v : string) (d : list (string * string))
    (x : string) :
  In x (map fst (content_set k v d)) <-> x = k \/ In x (map fst d).
Proof.
  induction d as [|[k0 v0] r IH]; simpl.
  - intuition congruence.
  - destruct (String.eqb_spec k k0) as [->|Hk]; simpl.
    + intuition congruence.
    + rewrite IH. intuition congruence.
Qed.

Lemma dependencies_loop_keys (tree : list TreeItem) :
  forall deps h x,
    In x (map fst (fst (dependencies_loop Host _get_file_content
                          tree deps h)))
    <-> In x (map fst deps)
        \/ (In x (map path tree) /\ is_manifest x = true).
Proof.
  induction tree as [|item rest IH]; intros deps h x; simpl.
  - tauto.
  - destruct (is_manifest (path item)) eqn:M.
    + destruct (_get_file_content (path item) h) as [content h'].
      rewrite IH, content_set_keys. split.
      * intros [[->|H]|[H1 H2]]; auto.
      * intros [H|[[<-|H1] H2]]; auto.
    + rewrite IH. split.
      * intros [H|[H1 H2]]; auto.
      * intros [H|[[<-|H1] H2]]; auto. congruence.
Qed.

(** The dependencies map has a key exactly for each listed path that ends
    in one of the five manifest names (entries of any type, at any depth),
    and every such path is one the classification counts as a build file or
    a config file. *)
Theorem dependencies_are_the_listed_manifests
    (tree : list TreeItem) (h : Host) (x : string) :
  (In x (map fst (fst (_analyze_dependencies Host _get_file_content tree h)))
   <-> In x (map path tree) /\ is_manifest x = true)
  /\ (is_manifest x = true ->
      RepoStructure._is_build_file x = true
      \/ RepoStructure._is_config_file x = true).
Proof.
  split.
  - unfold _analyze_dependencies. rewrite dependencies_loop_keys. simpl.
    tauto.
  - apply manifest_is_build_or_config.
Qed.

End ManifestFacts.

Example small_tree_dependencies :
  RepoTree._analyze_dependencies nat echo_host small_tree 0
  = ([("requirements.txt", "<requirements.txt>");
      ("Dockerfile", "<Dockerfile>")], 2).
Proof. reflexivity. Qed.

(* ================================================================== *)
(** * Properties of the execution timeframe and of [analyze_logs] *)
(* ================================================================== *)

Section FlowFacts.

Import LogAnalysisFlow.

Variable datetime : Type.
Variable list_pipeline_executions :
  value -> result (list (list (Execution datetime))).
Variable as_utc : datetime -> datetime.
Variable isoformat : datetime -> string.
Variable St : Type.
Variable get_log_events :
  LogAnalysis.GetLogEvents -> St -> result LogAnalysis.Page * St.
Variable describe_log_streams : string -> St -> result (list string) * St.
Variable epoch_ms : datetime -> Z.
Variable utcnow : datetime.
Variable minus_one_hour : datetime -> datetime.
Variable get_parameter : string -> result string.
Variable repr : value -> string.

Abbreviation timeframe :=
  (_get_pipeline_execution_timeframe datetime list_pipeline_executions
     as_utc).
Abbreviation resolution := (resolve_groups get_parameter repr).
Abbreviation fetch_logs :=
  (LogAnalysis._fetch_logs_in_timeframe St get_log_events
     describe_log_streams datetime epoch_ms utcnow minus_one_hour).
Abbreviation analysis :=
  (analyze_logs datetime list_pipeline_executions as_utc isoformat
     St get_log_events describe_log_streams epoch_ms utcnow minus_one_hour
     get_parameter repr).

Lemma filter_first {A : Type} (p : A -> bool) (l : list A) (x : A)
    (r : list A) :
  filter p l = x :: r ->
  exists before after,
    l = before ++ x :: after /\ p x = true
    /\ Forall (fun y => p y = false) before.
Proof.
  induction l as [|y l IH]; simpl; [discriminate|].
  destruct (p y) eqn:Py.
  - intros [= -> _]. exists [], l. auto.
  - intros H. destruct (IH H) as (before & after & -> & Hx & Hb).
    exists (y :: before), after. auto.
Qed.

(** The timeframe has both ends or neither.  It has both only when the
    registry lists an execution with the event's execution id, and then
    they are the start and the last update of the first such execution in
    page order, made UTC.  Without a pipeline name or an execution id the
    result is (None, None) whatever the registry holds. *)
Theorem timeframe_is_first_matching_execution (pipeline_event : value) :
  (timeframe pipeline_event = (None, None)
   \/ exists detail name id pages before first after,
        get_default pipeline_event "detail" (VDict []) = Ok detail
        /\ get detail "pipeline" = Ok name
        /\ get detail "execution-id" = Ok id
        /\ list_pipeline_executions name = Ok pages
        /\ List.concat pages = before ++ first :: after
        /\ is_str (pipelineExecutionId datetime first) id = true
        /\ Forall (fun e => is_str (pipelineExecutionId datetime e) id = false)
                  before
        /\ timeframe pipeline_event
           = (Some (as_utc (startTime datetime first)),
              Some (as_utc (lastUpdateTime datetime first))))
  /\ (forall detail name id,
        get_default pipeline_event "detail" (VDict []) = Ok detail ->
        get detail "pipeline" = Ok name ->
        get detail "execution-id" = Ok id ->
        truthy name && truthy id = false ->
        timeframe pipeline_event = (None, None)).
Proof.
  unfold _get_pipeline_execution_timeframe. split.
  - destruct (get_default pipeline_event "detail" (VDict []))
      as [detail|e] eqn:Hd; cbn [Py.bind try_except]; [|now left].
    destruct (get detail "pipeline") as [name|e] eqn:Hn;
      cbn [Py.bind try_except]; [|now left].
    destruct (get detail "execution-id") as [id|e] eqn:Hi;
      cbn [Py.bind try_except]; [|now left].
    destruct (negb (truthy name) || negb (truthy id)); [now left|].
    destruct (list_pipeline_executions name) as [pages|e] eqn:Hp;
      cbn [Py.bind try_except]; [|now left].
    destruct (filter _ (List.concat pages)) as [|first rest] eqn:Hf;
      [now left|].
    right. apply filter_first in Hf.
    destruct Hf as (before & after & Hc & Hx & Hb).
    exists detail, name, id, pages, before, first, after.
    repeat split; assumption || reflexivity.
  - intros detail name id Hd Hn Hi Hmissing.
    rewrite Hd; cbn [Py.bind]. rewrite Hn; cbn [Py.bind].
    rewrite Hi; cbn [Py.bind].
    replace (negb (truthy name) || negb (truthy id)) with true;
      [reflexivity|].
    destruct (truthy name), (truthy id); simpl in *; congruence.
Qed.

Lemma fetch_logs_never_raise (fuel : nat) (log_groups : list string)
    (start_time end_time : option datetime) (w : LogAnalysis.World St)
    (e : exn) :
  fst (fetch_logs fuel log_groups start_time end_time w)
  <> LogAnalysis.Raised e.
Proof.
  unfold LogAnalysis._fetch_logs_in_timeframe.
  destruct (LogAnalysis.window _ _ _ start_time end_time) as [t0 t1].
  pose proof (fetch_groups_never_raise St get_log_events
                describe_log_streams fuel (epoch_ms t0) (epoch_ms t1)
                log_groups [] w) as H.
  destruct (LogAnalysis.fetch_groups _ _ _ _ _ _ _ _ _) as [[l|e'|] w1];
    simpl in *; [discriminate | now contradiction (H e') | discriminate].
Qed.

(** An event that resolution accepts has a dict as its detail. *)
Lemma resolved_event_has_detail (error_info pipeline_event : value)
    (groups : list string) :
  resolution error_info pipeline_event = Ok groups ->
  exists d, get_default pipeline_event "detail" (VDict []) = Ok (VDict d).
Proof.
  unfold resolve_groups, LogAnalysis._get_log_groups_from_ssm.
  destruct (get_default error_info "pipeline_name" (VStr ""));
    cbn [Py.bind]; [|discriminate].
  destruct (get_default pipeline_event "detail" (VDict [])) as [detail|];
    cbn [Py.bind]; [|discriminate].
  destruct detail; try discriminate. eauto.
Qed.

(** Log analysis fails only in log-group resolution.  When reading the
    pipeline name or resolving the groups raises [e], the answer is
    [{"error": str(e)}] and the log store has not been asked anything.
    When resolution succeeds, whatever the registry and the log store do,
    an answer that is returned has status "success" and carries the
    resolved groups and the bundle of the fetch: no failure of the registry
    or of the store turns into an error payload. *)
Theorem log_analysis_fails_only_in_resolution
    (fuel : nat) (error_info pipeline_event : value)
    (w : LogAnalysis.World St) :
  (forall e,
      resolution error_info pipeline_event = Raise e ->
      analysis fuel error_info pipeline_event w
      = (LogAnalysis.Done (error_payload e), w))
  /\ (forall groups v w',
        resolution error_info pipeline_event = Ok groups ->
        analysis fuel error_info pipeline_event w = (LogAnalysis.Done v, w') ->
        get v "status" = Ok (VStr "success")
        /\ get v "log_groups_list" = Ok (VList (map VStr groups))
        /\ exists bundle,
             fetch_logs fuel groups
               (fst (timeframe pipeline_event))
               (snd (timeframe pipeline_event)) w
             = (LogAnalysis.Done bundle, w')
             /\ get v "log_streams" = Ok (bundle_value bundle)).
Proof.
  unfold analyze_logs. split.
  - intros e ->. now destruct (timeframe pipeline_event).
  - intros groups v w' Hres. rewrite Hres.
    destruct (resolved_event_has_detail _ _ _ Hres) as [d Hd].
    destruct (timeframe pipeline_event) as [t0 t1]. cbn [fst snd].
    pose proof (fetch_logs_never_raise fuel groups t0 t1 w) as Hnever.
    destruct (fetch_logs fuel groups t0 t1 w) as [[bundle|e|] w1];
      cbn [fst] in Hnever.
    + unfold success_payload. rewrite Hd. cbn [Py.bind get get_default].
      cbn [try_except]. intros [= <- <-].
      split; [reflexivity|]. split; [reflexivity|].
      exists bundle. split; reflexivity.
    + now contradiction (Hnever e).
    + discriminate.
Qed.

End FlowFacts.

(* ================================================================== *)
(** * More on the suspect-file identifier *)
(* ================================================================== *)

Section SuspectMore.

Import SolutionProvider.

Variable json_loads : string -> result value.

(** When the repository payload holds no [file_paths] (as the error
    payload of a failed repository analysis does), no file is identified,
    whatever the error context and whatever the model answers. *)
Theorem no_file_list_no_suspect
    (_invoke_bedrock_simple : value -> value -> value)
    (error_context repo_structure : value) (d : list (string * value)) :
  unwrap json_loads repo_structure = Ok (VDict d) ->
  lookup "file_paths" d = None ->
  _identify_problematic_file json_loads _invoke_bedrock_simple
    error_context repo_structure
  = Ok None.
Proof.
  intros Hu Hl.
  assert (Hfiles : available_files json_loads repo_structure
                   = Ok (VList [])).
  { unfold available_files. rewrite Hu. cbn [Py.bind get_default].
    now rewrite Hl. }
  unfold _identify_problematic_file.
  rewrite (identify_with_list json_loads _invoke_bedrock_simple _ _ _ Hfiles).
  destruct (unwrap json_loads error_context); cbn [Py.bind try_except];
    [|reflexivity].
  destruct (clean _) as [filename|]; cbn [Py.bind try_except];
    [|reflexivity].
  now destruct (String.eqb filename "NONE").
Qed.

Variable invoke_model : value -> value -> result value.

Abbreviation answer := (ModelCall._invoke_bedrock_simple invoke_model).

(** A model call that raises is read as the answer "Error": the identifier
    then returns the file named "Error" when the file list has one, and
    [None] otherwise. *)
Theorem failed_model_call_reads_as_the_answer_Error
    (error_context repo_structure error_data : value) (files : list value) :
  (forall e a, exists x, invoke_model e a = Raise x) ->
  unwrap json_loads error_context = Ok error_data ->
  available_files json_loads repo_structure = Ok (VList files) ->
  _identify_problematic_file json_loads answer error_context repo_structure
  = Ok (if existsb (is_str "Error") files then Some "Error" else None).
Proof.
  intros Hfail Hec Hfiles. unfold _identify_problematic_file.
  rewrite (identify_with_list json_loads answer _ _ _ Hfiles).
  rewrite Hec. cbn [Py.bind].
  unfold ModelCall._invoke_bedrock_simple.
  destruct (Hfail error_data (VList files)) as [x ->].
  cbn [Py.bind try_except clean].
  change (PyStr.strip_char PyStr.dquote (PyStr.strip "Error")) with "Error".
  cbn [Py.bind]. change (String.eqb "Error" "NONE") with false. cbv iota.
  now destruct (existsb (is_str "Error") files).
Qed.

End SuspectMore.

(** The theorem at a repository with a file named "Error". *)
Lemma failed_model_call_reads_as_the_answer_Error_witness :
  SolutionProvider._identify_problematic_file decode_repo
    (ModelCall._invoke_bedrock_simple model_down) logs_error repo_with_Error
  = Ok (Some "Error").
Proof.
  apply (failed_model_call_reads_as_the_answer_Error decode_repo model_down
           logs_error repo_with_Error logs_error
           [VStr "src/app.py"; VStr "Error"]).
  - intros e a. eexists. reflexivity.
  - reflexivity.
  - reflexivity.
Defined.

(** The theorem at the error payload of a failed repository analysis. *)
Lemma no_file_list_no_suspect_witness :
  SolutionProvider._identify_problematic_file decode_repo
    (answers "src/app.py") logs_error
    (VDict [("error", VStr "Failed to fetch repository tree")])
  = Ok None.
Proof.
  apply (no_file_list_no_suspect decode_repo (answers "src/app.py")
           logs_error _ [("error", VStr "Failed to fetch repository tree")]);
    reflexivity.
Defined.

(** The timeframe of execution [x-2]: the first of its two entries. *)
Example timeframe_of_x2 :
  LogAnalysisFlow._get_pipeline_execution_timeframe Z registry (fun t => t)
    build_failure_x2
  = (Some 1000%Z, Some 2000%Z).
Proof. reflexivity. Qed.

(** An event without execution id has no timeframe. *)
Example timeframe_without_id :
  LogAnalysisFlow._get_pipeline_execution_timeframe Z registry (fun t => t)
    build_failure
  = (None, None).
Proof. reflexivity. Qed.

(** The log analysis of the event without detail: resolution fails and
    the store is left alone. *)
Example analysis_of_bare_event :
  analysis_run ssm_both bare_event
  = (LogAnalysis.Done
       (VDict [("error",
                VStr "Missing required information in pipeline event - stage: None, action: None, provider: None")]),
     LogAnalysis.fresh tt).
Proof. reflexivity. Qed.

(** The log analysis of the build failure: two groups, both of native kind
    by their names, two requests, two entries. *)
Example analysis_of_build_failure :
  match analysis_run ssm_both build_failure_x2 with
  | (LogAnalysis.Done v, w') =>
      get v "status" = Ok (VStr "success")
      /\ get v "execution_timeframe"
         = Ok (VDict [("start_time", VStr "T"); ("end_time", VStr "T")])
      /\ List.length (LogAnalysis.calls w') = 2%nat
  | _ => False
  end.
Proof. vm_compute. repeat split; reflexivity. Qed.

(** The theorem at the event without detail. *)
Lemma log_analysis_fails_only_in_resolution_witness :
  analysis_run ssm_both bare_event
  = (LogAnalysis.Done
       (LogAnalysisFlow.error_payload
          (ValueError
             "Missing required information in pipeline event - stage: None, action: None, provider: None")),
     LogAnalysis.fresh tt).
Proof.
  apply (proj1 (log_analysis_fails_only_in_resolution
                  Z registry (fun t => t) (fun t => "T")
                  unit single one_stream (fun t => t) 7200000%Z
                  (fun t => (t - 3600000)%Z) ssm_both repr_none
                  5 (VDict [("pipeline_name", VStr "app")]) bare_event
                  (LogAnalysis.fresh tt))).
  reflexivity.
Defined.

(* ================================================================== *)
(** * More on the orchestrator *)
(* ================================================================== *)

Section OrchestrationMore.

Import Supervisor.

Variable json_dumps : value -> string.
Variable new_RepoStructureFunction : result unit.
Variable new_LogAnalysisFunction : result unit.
Variable new_SolutionProviderAgent : result unit.
Variable repository_structure_body : value -> result value.
Variable logs_body : value -> value -> result value.
Variable solution_body : value -> value -> result value.
Variable get_pipeline_source_branch : value -> result value.

Abbreviation body :=
  (orchestrate json_dumps new_RepoStructureFunction new_LogAnalysisFunction
     new_SolutionProviderAgent repository_structure_body logs_body
     solution_body get_pipeline_source_branch).
Abbreviation entrypoint :=
  (orchestrate_analysis json_dumps new_RepoStructureFunction
     new_LogAnalysisFunction new_SolutionProviderAgent
     repository_structure_body logs_body solution_body
     get_pipeline_source_branch).


Lemma extract_error_info_readable (pipeline_event : value) :
  (exists error_info, _extract_error_info pipeline_event = Ok error_info)
  <-> readable pipeline_event.
Proof.
  unfold _extract_error_info, readable. split.
  - intros [error_info H].
    destruct pipeline_event as [| | | | |ev]; try discriminate.
    cbn [Py.bind get_default] in H |- *.
    destruct (lookup "detail" ev) as [[| | | | |d]|]; try discriminate.
    + cbn [Py.bind get_default] in H. exists d.
      destruct (lookup "execution-result" d) as [[| | | | |x]|];
        try discriminate; eauto.
    + exists []. cbn. eauto.
  - intros (detail & x & Hd & Hx). rewrite Hd. cbn [Py.bind get_default].
    destruct pipeline_event as [| | | | |ev]; try discriminate.
    cbn [get_default] in Hx |- *. injection Hx as ->.
    cbn [Py.bind get_default]. eauto.
Qed.

(** The entry point answers with status "success" exactly when the payload
    is a dict whose event has readable fields and the branch lookup
    returns; in every other case an exception has escaped the body and the
    answer is [{"status": "error", "message": str(e)}].  What the three
    stages do has no part in it. *)
Theorem top_level_status_depends_on_the_payload_alone (payload : value) :
  (get (entrypoint payload) "status" = Ok (VStr "success")
   <-> exists pipeline_event branch,
         get payload "event" = Ok pipeline_event
         /\ get_pipeline_source_branch pipeline_event = Ok branch
         /\ readable pipeline_event)
  /\ (get (entrypoint payload) "status" = Ok (VStr "success")
      \/ exists e, entrypoint payload
                   = VDict [("status", VStr "error");
                            ("message", VStr (str_of_exn e))]).
Proof.
  unfold orchestrate_analysis.
  destruct (body payload) as [r|e] eqn:Hbody; cbn [try_except].
  - assert (Hstatus : get r "status" = Ok (VStr "success")).
    { unfold orchestrate in Hbody.
      destruct (get payload "event") as [pe|]; [|discriminate].
      cbn [Py.bind] in Hbody.
      destruct (get_pipeline_source_branch pe) as [b|]; [|discriminate].
      cbn [Py.bind] in Hbody.
      destruct (_extract_error_info pe) as [ei|]; [|discriminate].
      cbn [Py.bind] in Hbody. now apply aggregate_status in Hbody. }
    split; [|now left]. split; [intros _|intros _; exact Hstatus].
    unfold orchestrate in Hbody.
    destruct (get payload "event") as [pe|]; [|discriminate].
    cbn [Py.bind] in Hbody.
    destruct (get_pipeline_source_branch pe) as [b|] eqn:Hb; [|discriminate].
    cbn [Py.bind] in Hbody.
    destruct (_extract_error_info pe) as [ei|] eqn:He; [|discriminate].
    exists pe, b. split; [reflexivity|]. split; [exact Hb|].
    apply extract_error_info_readable. eauto.
  - split; [|right; eauto]. split; [discriminate|].
    intros (pe & b & Hp & Hb & Hr).
    apply extract_error_info_readable in Hr. destruct Hr as [ei He].
    destruct (orchestrate_returns json_dumps new_RepoStructureFunction
                new_LogAnalysisFunction new_SolutionProviderAgent
                repository_structure_body logs_body solution_body
                get_pipeline_source_branch payload pe b ei Hp Hb He)
      as [r Hr].
    congruence.
Qed.

End OrchestrationMore.

(* ================================================================== *)
(** * The source branch *)
(* ================================================================== *)

Section BranchFacts.

Import SourceBranch.


Lemma find_branch_sound (actions : list value) (branch : value) :
  find_branch actions = Ok branch ->
  branch = VNone
  \/ exists before action after,
       actions = before ++ action :: after
       /\ connection_action action branch
       /\ Forall (fun a => forall b, ~ connection_action a b) before.
Proof.
  induction actions as [|action rest IH]; simpl.
  - intros [= <-]. now left.
  - destruct (PyItem.subscript action "actionTypeId") as [t|] eqn:Ht;
      cbn [Py.bind]; [|discriminate].
    destruct (PyItem.subscript t "category") as [c|] eqn:Hc;
      cbn [Py.bind]; [|discriminate].
    assert (Hskip : (forall b, ~ connection_action action b) ->
                    find_branch rest = Ok branch ->
                    branch = VNone
                    \/ exists before a after,
                         action :: rest = before ++ a :: after
                         /\ connection_action a branch
                         /\ Forall (fun a => forall b,
                                      ~ connection_action a b) before).
    { intros Hno H. destruct (IH H) as [->|(before & a & after & -> & Ha & Hb)];
        [now left|].
      right. exists (action :: before), a, after. auto. }
    destruct (is_str "Source" c) eqn:Kc.
    + destruct (PyItem.subscript t "provider") as [p|] eqn:Hp;
        cbn [Py.bind]; [|discriminate].
      destruct (is_str "CodeStarSourceConnection" p) eqn:Kp.
      * destruct (PyItem.subscript action "configuration") as [conf|] eqn:Hconf;
          cbn [Py.bind]; [|discriminate].
        intros Hbranch. right. exists [], action, rest.
        split; [reflexivity|]. split; [|constructor].
        apply is_str_true in Kc, Kp. subst c p.
        now exists t, conf.
      * apply Hskip. intros b (t' & conf & Ht' & _ & Hp' & _).
        rewrite Ht in Ht'. injection Ht' as <-. rewrite Hp in Hp'.
        injection Hp' as ->. discriminate.
    + apply Hskip. intros b (t' & conf & Ht' & Hc' & _).
      rewrite Ht in Ht'. injection Ht' as <-. rewrite Hc in Hc'.
      injection Hc' as ->. discriminate.
Qed.

Variable new_client : result unit.
Variable get_pipeline : value -> result value.

(** The branch lookup raises only when its client cannot be built.  What
    it returns is [None] or the [BranchName] of an action of the first
    stage of the event's pipeline: the first action there whose category
    is "Source" and whose provider is "CodeStarSourceConnection".  Later
    stages are not looked at. *)
Theorem source_branch_comes_from_the_first_stage (pipeline_event : value) :
  (forall e, get_pipeline_source_branch new_client get_pipeline pipeline_event
             = Raise e -> new_client = Raise e)
  /\ (forall branch,
        get_pipeline_source_branch new_client get_pipeline pipeline_event
        = Ok branch ->
        branch = VNone
        \/ exists detail name response before action after,
             get_default pipeline_event "detail" (VDict []) = Ok detail
             /\ get detail "pipeline" = Ok name
             /\ get_pipeline name = Ok response
             /\ first_stage_actions response
                = Ok (before ++ action :: after)
             /\ connection_action action branch
             /\ Forall (fun a => forall b, ~ connection_action a b) before).
Proof.
  unfold get_pipeline_source_branch. split.
  - intros e. destruct new_client as [[]|e']; cbn [Py.bind]; congruence.
  - intros branch. destruct new_client as [[]|e']; cbn [Py.bind];
      [|discriminate].
    intros [= <-].
    destruct (get_default pipeline_event "detail" (VDict []))
      as [detail|] eqn:Hd; cbn [Py.bind try_except]; [|now left].
    destruct (get detail "pipeline") as [name|] eqn:Hn;
      cbn [Py.bind try_except]; [|now left].
    destruct (negb (truthy name)); cbn [try_except]; [now left|].
    destruct (get_pipeline name) as [response|] eqn:Hr;
      cbn [Py.bind try_except]; [|now left].
    destruct (first_stage_actions response) as [actions|] eqn:Ha;
      cbn [Py.bind try_except]; [|now left].
    destruct (find_branch actions) as [b|] eqn:Hb; cbn [try_except];
      [|now left].
    destruct (find_branch_sound _ _ Hb)
      as [->|(before & action & after & -> & Hc & Hbefore)]; [now left|].
    right. exists detail, name, response, before, action, after.
    auto 10.
Qed.

End BranchFacts.

(** The branch of the pipeline with two source actions: the S3 action is
    passed over. *)
Example branch_of_pipeline :
  SourceBranch.get_pipeline_source_branch (Ok tt) pipeline_store build_failure
  = Ok (VStr "main").
Proof. reflexivity. Qed.

(** Without a pipeline name the branch is [None]. *)
Example branch_without_pipeline_name :
  SourceBranch.get_pipeline_source_branch (Ok tt) pipeline_store bare_event
  = Ok VNone.
Proof. reflexivity. Qed.
